(** * MIDI output adapter (src/platform/{windows,linux,macos}/midi.cpp)

    A shallow embedding of the three platform variants of the MIDI output
    adapter and the properties of its specification.

    The Windows variant talks to the multimedia subsystem (winmm).  Every
    call into that subsystem is modelled as a transition of an abstract
    platform world, and every call and every log line is recorded, in
    program order, in the list of events a run produces.  A run ends
    with a value or with a C++ exception.  The Linux and macOS variants
    are stubs. *)

From Stdlib Require Import ZArith List String Ascii Bool Lia.
From Stdlib.Strings Require Import Byte.
From Stdlib Require Import Sorted.
Import ListNotations.
Local Open Scope string_scope.
Local Open Scope list_scope.
Local Open Scope Z_scope.

(** ** Machine integers *)

(** [UINT], [DWORD] and [MMRESULT] are unsigned 32-bit, [int] is signed
    32-bit, [size_t] is unsigned; all are carried by [Z] and the
    conversions of the source are written out. *)
Definition to_DWORD (z : Z) : Z := z mod 2 ^ 32.
Definition to_UINT (z : Z) : Z := z mod 2 ^ 32.
Definition to_int (z : Z) : Z := (z + 2 ^ 31) mod 2 ^ 32 - 2 ^ 31.
Definition to_size_t (z : Z) : Z := z mod 2 ^ 64.

(** The value of a [uint8_t]. *)
Definition u8 (b : byte) : Z := Z.of_N (Byte.to_N b).

(** Modelled from the spec: the constant [MMSYSERR_NOERROR] of mmsystem.h
    is not part of the sources; the specification calls every non-zero
    result code a platform failure, so success is the code zero. *)
Definition MMSYSERR_NOERROR : Z := 0.

(** ** Data model *)

(** A non-null [HMIDIOUT] value. *)
Definition handle := Z.

(** Pointers are options: [None] is [nullptr]. *)
Definition is_nullptr {A} (p : option A) : bool :=
  match p with None => true | Some _ => false end.

(** [HMIDIOUT] is a pointer type. *)
Definition HMIDIOUT := option handle.

(** [midi_device_info_t] (declared in src/platform/common.h), as it is
    built and read in the sources: an [int] id and a [std::string] name. *)
Record midi_device_info_t := { id : Z; name : string }.

(** The part of [MIDIOUTCAPSW] the adapter reads: the wide-character
    product name, up to its terminator. *)
Record MIDIOUTCAPSW := { szPname : list Z }.

(** The fields of [MIDIHDR] the adapter sets; [= {}] zeroes the others,
    of which [dwFlags] is the one the subsystem updates. *)
Record MIDIHDR := {
  lpData : list byte;
  dwBufferLength : Z;
  dwBytesRecorded : Z;
  dwFlags : Z
}.

(** The payload pointer of [midi_send]: [None] is [nullptr], [Some buf]
    points at the bytes [buf]. *)
Definition payload := option (list byte).

(** [data[i]]; the caller owes [length] readable bytes, a read past the
    buffer is undefined in the source and yields zero here. *)
Definition index (data : payload) (i : nat) : byte :=
  match data with
  | Some buf => nth i buf x00
  | None => x00
  end.

(** ** Events: platform calls and log lines *)

Inductive severity := debug | info | warning | error.

(** One operand of a [BOOST_LOG(...) << ...] chain: a literal, a
    [std::string] or a number. *)
Inductive piece :=
| sv (s : string)
| str (s : string)
| num (z : Z).

(** A call into the platform, with its arguments and what it returned. *)
Inductive winmm_call :=
| GetNumDevs (ret : Z)
| GetDevCapsW (uDeviceID : Z) (ret : Z) (caps : MIDIOUTCAPSW)
| Open (uDeviceID : Z) (ret : Z) (phmo : HMIDIOUT)
| Reset (hmo : handle) (ret : Z)
| Close (hmo : handle) (ret : Z)
| ShortMsg (hmo : handle) (dwMsg : Z) (ret : Z)
| PrepareHeader (hmo : handle) (hdr : MIDIHDR) (ret : Z)
| LongMsg (hmo : handle) (hdr : MIDIHDR) (ret : Z)
| UnprepareHeader (hmo : handle) (hdr : MIDIHDR) (ret : Z).

Inductive event :=
| Call (c : winmm_call)
| Log (lvl : severity) (msg : list piece).

(** ** The monad: state passing with an event log and exceptions *)

(** The C++ exceptions the adapter can let escape. *)
Inductive exception := length_error.

(** How a run ends: with a value, or with an exception thrown. *)
Inductive outcome (A : Type) :=
| Ret (a : A)
| Throw (e : exception).
Arguments Ret {A} a.
Arguments Throw {A} e.

Definition M (St A : Type) : Type := St -> outcome A * St * list event.

Definition ret {St A} (a : A) : M St A := fun s => (Ret a, s, []).

Definition throw {St A} (e : exception) : M St A :=
  fun s => (Throw e, s, []).

(** Sequencing: an exception ends the run where it is thrown. *)
Definition bind {St A B} (m : M St A) (k : A -> M St B) : M St B :=
  fun s =>
    let '(o, s1, e1) := m s in
    match o with
    | Ret a => let '(b, s2, e2) := k a s1 in (b, s2, e1 ++ e2)
    | Throw e => (Throw e, s1, e1)
    end.

Declare Scope midi_scope.
Delimit Scope midi_scope with midi.
Notation "x <- m ;; k" := (bind m (fun x => k))
  (at level 100, m at next level, right associativity) : midi_scope.
Notation "' p <- m ;; k" := (bind m (fun x => let p := x in k))
  (at level 100, p pattern, m at next level, right associativity) : midi_scope.
Notation "m ;; k" := (bind m (fun _ => k))
  (at level 100, right associativity) : midi_scope.
Local Open Scope midi_scope.

Definition emit {St} (e : event) : M St unit := fun s => (Ret tt, s, [e]).

(** [BOOST_LOG(lvl) << ...] *)
Definition BOOST_LOG {St} (lvl : severity) (msg : list piece) : M St unit :=
  emit (Log lvl msg).

(** The three components of a run. *)
Definition result_of {St A} (r : A * St * list event) : A := fst (fst r).
Definition state_of {St A} (r : A * St * list event) : St := snd (fst r).
Definition events_of {St A} (r : A * St * list event) : list event := snd r.

(** ** The platform interface *)

(** The subsystem behind the Windows variant: each entry takes the
    arguments the adapter passes and the current world, and gives the
    result code, what it wrote through its out-parameter, and the next
    world.  Nothing is assumed about it.

    [win_WideCharToMultiByte src cb] stands for
    [WideCharToMultiByte(CP_UTF8, 0, src, -1, dst, cb, nullptr, nullptr)],
    a conversion that depends on its arguments only: it gives the value
    returned and the bytes written to [dst].  With [cb = 0] it measures:
    it writes nothing and returns the size the text needs, terminator
    included; it returns 0 when it fails. *)
Class Win32 (W : Type) := {
  win_midiOutGetNumDevs : W -> Z * W;
  win_midiOutGetDevCapsW : Z -> W -> Z * MIDIOUTCAPSW * W;
  win_WideCharToMultiByte : list Z -> Z -> Z * string;
  win_midiOutOpen : Z -> W -> Z * HMIDIOUT * W;
  win_midiOutReset : handle -> W -> Z * W;
  win_midiOutClose : handle -> W -> Z * W;
  win_midiOutShortMsg : handle -> Z -> W -> Z * W;
  win_midiOutPrepareHeader : handle -> MIDIHDR -> W -> Z * MIDIHDR * W;
  win_midiOutLongMsg : handle -> MIDIHDR -> W -> Z * MIDIHDR * W;
  win_midiOutUnprepareHeader : handle -> MIDIHDR -> W -> Z * MIDIHDR * W
}.

(** The configuration collaborator ([config::input]). *)
Record input_t := { midi : bool; midi_device : string }.

(** ** Windows *)

Module Windows.

(** The process-wide state: [static HMIDIOUT midi_handle] and the world. *)
Record state (W : Type) := mkState { midi_handle : HMIDIOUT; world : W }.
Arguments mkState {W} _ _.
Arguments midi_handle {W} _.
Arguments world {W} _.

Section Adapter.
Context {W : Type} {P : Win32 W}.

Definition get_handle : M (state W) HMIDIOUT :=
  fun s => (Ret (midi_handle s), s, []).

Definition set_handle (h : HMIDIOUT) : M (state W) unit :=
  fun s => (Ret tt, mkState h (world s), []).

(** *** The platform calls, as the adapter issues them *)

Definition midiOutGetNumDevs : M (state W) Z := fun s =>
  let '(n, w) := win_midiOutGetNumDevs (world s) in
  (Ret n, mkState (midi_handle s) w, [Call (GetNumDevs n)]).

Definition midiOutGetDevCapsW (i : Z)
  : M (state W) (Z * MIDIOUTCAPSW) := fun s =>
  let '(r, caps, w) := win_midiOutGetDevCapsW i (world s) in
  (Ret (r, caps), mkState (midi_handle s) w, [Call (GetDevCapsW i r caps)]).

(** [midiOutOpen(&midi_handle, device_id, 0, 0, CALLBACK_NULL)]: the
    out-parameter is the global handle. *)
Definition midiOutOpen (device_id : Z) : M (state W) Z := fun s =>
  let '(r, h, w) := win_midiOutOpen device_id (world s) in
  (Ret r, mkState h w, [Call (Open device_id r h)]).

Definition midiOutReset (h : handle) : M (state W) Z := fun s =>
  let '(r, w) := win_midiOutReset h (world s) in
  (Ret r, mkState (midi_handle s) w, [Call (Reset h r)]).

Definition midiOutClose (h : handle) : M (state W) Z := fun s =>
  let '(r, w) := win_midiOutClose h (world s) in
  (Ret r, mkState (midi_handle s) w, [Call (Close h r)]).

Definition midiOutShortMsg (h : handle) (msg : Z) : M (state W) Z := fun s =>
  let '(r, w) := win_midiOutShortMsg h msg (world s) in
  (Ret r, mkState (midi_handle s) w, [Call (ShortMsg h msg r)]).

Definition midiOutPrepareHeader (h : handle) (hdr : MIDIHDR)
  : M (state W) (Z * MIDIHDR) := fun s =>
  let '(r, hdr', w) := win_midiOutPrepareHeader h hdr (world s) in
  (Ret (r, hdr'), mkState (midi_handle s) w,
   [Call (PrepareHeader h hdr r)]).

Definition midiOutLongMsg (h : handle) (hdr : MIDIHDR)
  : M (state W) (Z * MIDIHDR) := fun s =>
  let '(r, hdr', w) := win_midiOutLongMsg h hdr (world s) in
  (Ret (r, hdr'), mkState (midi_handle s) w, [Call (LongMsg h hdr r)]).

Definition midiOutUnprepareHeader (h : handle) (hdr : MIDIHDR)
  : M (state W) (Z * MIDIHDR) := fun s =>
  let '(r, hdr', w) := win_midiOutUnprepareHeader h hdr (world s) in
  (Ret (r, hdr'), mkState (midi_handle s) w,
   [Call (UnprepareHeader h hdr r)]).

(** *** midi_list_devices *)

(** [max_size()] of [std::string] on the 64-bit target.  The count the
    adapter asks for is an [int] converted to [size_t], so any bound
    between 2^31 and 2^64 - 2^32 tells the same counts apart. *)
Definition string_max_size : Z := 2 ^ 63 - 1.

(** [std::string(count, ch)]: [count] copies of [ch]; a count above
    [max_size()] throws [std::length_error]. *)
Definition std_string (count : Z) (ch : ascii) : M (state W) string :=
  if count >? string_max_size then throw length_error
  else ret (string_of_list_ascii (repeat ch (Z.to_nat count))).

(** What the string [buf] holds once the bytes [written] have been
    stored from [buf.data()] on: they replace its characters from the
    first on; the terminating byte of the text falls on the terminator
    of [buf], one past its last character. *)
Fixpoint fill (buf written : string) : string :=
  match buf, written with
  | EmptyString, _ => EmptyString
  | String c b, EmptyString => String c b
  | String _ b, String d w => String d (fill b w)
  end.

(** The body of [for (UINT i = 0; i < num_devs; i++)], with [n]
    iterations left.  Lines 58-60: the size is measured and taken as it
    comes, a string of [len - 1] characters is built, and the text is
    written into it.  The count [len - 1] is an [int] converted to
    [size_t]: at [len = 0], the failure value of the measuring call, it
    is the largest [size_t], and for no [len] below 1 is it a size
    [std::string] accepts. *)
Fixpoint list_devices_loop (n : nat) (i : Z)
    (devices : list midi_device_info_t)
  : M (state W) (list midi_device_info_t) :=
  match n with
  | O => ret devices
  | S n' =>
      '(r, caps) <- midiOutGetDevCapsW i ;;
      if r =? MMSYSERR_NOERROR then
        let len := to_int (fst (win_WideCharToMultiByte (szPname caps) 0)) in
        name <- std_string (to_size_t (len - 1)) zero ;;
        let name :=
          fill name (snd (win_WideCharToMultiByte (szPname caps) len)) in
        list_devices_loop n' (i + 1)
          (devices ++ [{| id := to_int i; name := name |}])
      else
        list_devices_loop n' (i + 1) devices
  end.

Definition midi_list_devices : M (state W) (list midi_device_info_t) :=
  num_devs <- midiOutGetNumDevs ;;
  list_devices_loop (Z.to_nat num_devs) 0 [].

(** *** midi_close *)

Definition midi_close : M (state W) unit :=
  h <- get_handle ;;
  match h with
  | Some hd =>
      midiOutReset hd ;;
      midiOutClose hd ;;
      set_handle None ;;
      BOOST_LOG debug [sv "Closed MIDI output device"]
  | None => ret tt
  end.

(** *** midi_open *)

(** The search loop of [midi_open]: [for (const auto &dev : devices)]
    with its [break]; gives the final [device_id] and [found]. *)
Fixpoint find_device (device_name : string) (devices : list midi_device_info_t)
    (device_id : Z) : M (state W) (Z * bool) :=
  match devices with
  | [] => ret (device_id, false)
  | dev :: rest =>
      if String.eqb (name dev) device_name then
        let device_id := to_UINT (id dev) in
        BOOST_LOG info [sv "Found MIDI device '"; str device_name;
                        sv "' at index "; num device_id] ;;
        ret (device_id, true)
      else find_device device_name rest device_id
  end.

Definition midi_open (device_name : string) : M (state W) Z :=
  h <- get_handle ;;
  (if is_nullptr h then ret tt else midi_close) ;;
  let device_id := 0 in
  device_id <-
    (if negb (String.eqb device_name "auto")
        && negb (String.eqb device_name "") then
       devices <- midi_list_devices ;;
       '(device_id, found) <- find_device device_name devices device_id ;;
       (if negb found then
          BOOST_LOG warning [sv "MIDI device '"; str device_name;
                             sv "' not found, using default"]
        else ret tt) ;;
       ret device_id
     else ret device_id) ;;
  n <- midiOutGetNumDevs ;;
  if n =? 0 then
    BOOST_LOG warning [sv "No MIDI output devices available"] ;;
    ret (-1)
  else
    result <- midiOutOpen device_id ;;
    if negb (result =? MMSYSERR_NOERROR) then
      BOOST_LOG error [sv "Failed to open MIDI device: error "; num result] ;;
      set_handle None ;;
      ret (-1)
    else
      BOOST_LOG info [sv "Opened MIDI output device "; num device_id] ;;
      ret 0.

(** *** midi_send *)

(** The short-message word, as lines 133-135 build it. *)
Definition short_msg (data : payload) (length : Z) : Z :=
  let msg := to_DWORD (u8 (index data 0)) in
  let msg :=
    if 1 <? length
    then Z.lor msg (to_DWORD (Z.shiftl (to_DWORD (u8 (index data 1))) 8))
    else msg in
  let msg :=
    if 2 <? length
    then Z.lor msg (to_DWORD (Z.shiftl (to_DWORD (u8 (index data 2))) 16))
    else msg in
  msg.

(** [MIDIHDR header = {}] with the three assignments that follow it. *)
Definition sysex_header (data : payload) (length : Z) : MIDIHDR :=
  {| lpData := match data with Some buf => buf | None => [] end;
     dwBufferLength := to_DWORD length;
     dwBytesRecorded := to_DWORD length;
     dwFlags := 0 |}.

Definition midi_send (data : payload) (length : Z) : M (state W) Z :=
  h <- get_handle ;;
  match h with
  | None =>
      BOOST_LOG debug [sv "MIDI send called but no device open"] ;;
      ret (-1)
  | Some hd =>
      if (length =? 0) || is_nullptr data then ret (-1)
      else if length <=? 3 then
        let msg := short_msg data length in
        result <- midiOutShortMsg hd msg ;;
        if negb (result =? MMSYSERR_NOERROR) then
          BOOST_LOG warning
            [sv "MIDI short message send failed: error "; num result] ;;
          ret (-1)
        else ret 0
      else
        let header := sysex_header data length in
        '(result, header) <- midiOutPrepareHeader hd header ;;
        if negb (result =? MMSYSERR_NOERROR) then
          BOOST_LOG warning
            [sv "MIDI prepare header failed: error "; num result] ;;
          ret (-1)
        else
          '(result, header) <- midiOutLongMsg hd header ;;
          midiOutUnprepareHeader hd header ;;
          if negb (result =? MMSYSERR_NOERROR) then
            BOOST_LOG warning
              [sv "MIDI long message send failed: error "; num result] ;;
            ret (-1)
          else ret 0
  end.

(** *** midi_init and midi_deinit *)

Fixpoint log_devices (devices : list midi_device_info_t) : M (state W) unit :=
  match devices with
  | [] => ret tt
  | dev :: rest =>
      BOOST_LOG info [sv "  MIDI device "; num (id dev); sv ": ";
                      str (name dev)] ;;
      log_devices rest
  end.

Definition midi_init (input : input_t) : M (state W) Z :=
  BOOST_LOG info [sv "Initializing MIDI subsystem"] ;;
  devices <- midi_list_devices ;;
  BOOST_LOG info [sv "Found "; num (Z.of_nat (List.length devices));
                  sv " MIDI output device(s)"] ;;
  log_devices devices ;;
  (if midi input && negb (String.eqb (midi_device input) "") then
     r <- midi_open (midi_device input) ;;
     if r =? 0 then
       BOOST_LOG info [sv "MIDI output device opened successfully"]
     else
       BOOST_LOG warning [sv "Failed to open MIDI output device"]
   else ret tt) ;;
  ret 0.

Definition midi_deinit : M (state W) unit :=
  BOOST_LOG info [sv "Shutting down MIDI subsystem"] ;;
  midi_close.

End Adapter.
End Windows.

(** ** Linux *)

Module Linux.

Definition midi_init : M unit Z :=
  BOOST_LOG info [sv "MIDI support not yet implemented on Linux"] ;;
  ret 0.

Definition midi_deinit : M unit unit := ret tt.

Definition midi_list_devices : M unit (list midi_device_info_t) := ret [].

Definition midi_open (device_name : string) : M unit Z :=
  BOOST_LOG warning [sv "MIDI not supported on this platform"] ;;
  ret (-1).

Definition midi_close : M unit unit := ret tt.

Definition midi_send (data : payload) (length : Z) : M unit Z := ret (-1).

End Linux.

(** ** macOS *)

Module MacOS.

Definition midi_init : M unit Z :=
  BOOST_LOG info [sv "MIDI support not yet implemented on macOS"] ;;
  ret 0.

Definition midi_deinit : M unit unit := ret tt.

Definition midi_list_devices : M unit (list midi_device_info_t) := ret [].

Definition midi_open (device_name : string) : M unit Z :=
  BOOST_LOG warning [sv "MIDI not supported on this platform"] ;;
  ret (-1).

Definition midi_close : M unit unit := ret tt.

Definition midi_send (data : payload) (length : Z) : M unit Z := ret (-1).

End MacOS.

(** ** A simulated platform

    A scripted subsystem to run the adapter on: a table of devices, the
    result code each kind of call answers with, and a counter for fresh
    handles.  Its text conversion knows the 7-bit characters only and
    fails on a name that holds anything else. *)

Module Sim.

Record world := mkWorld {
  devs : list (Z * list Z);   (* per index: GetDevCaps result, product name *)
  open_result : Z;
  short_result : Z;
  prepare_result : Z;
  long_result : Z;
  unprepare_result : Z;
  next_handle : Z
}.

(** A product name as the wide string the capability record carries. *)
Definition wide (s : string) : list Z :=
  map (fun c => Z.of_N (N_of_ascii c)) (list_ascii_of_string s).

Definition narrow (w : list Z) : string :=
  string_of_list_ascii (map (fun z => ascii_of_N (Z.to_N z)) w).

Definition convertible (w : list Z) : bool :=
  forallb (fun z => (0 <? z) && (z <? 128)) w.

(** The conversion: the size with the terminator when measuring, the
    text and its terminator when the buffer is large enough, 0 when the
    name cannot be converted or the buffer is too small. *)
Definition convert (w : list Z) (cb : Z) : Z * string :=
  let out := (narrow w ++ String zero EmptyString)%string in
  let size := Z.of_nat (String.length out) in
  if negb (convertible w) then (0, EmptyString)
  else if cb =? 0 then (size, EmptyString)
  else if cb <? size then (0, EmptyString)
  else (size, out).

Definition MMSYSERR_BADDEVICEID : Z := 2.
Definition MHDR_PREPARED : Z := 2.

Definition with_flags (hdr : MIDIHDR) (f : Z) : MIDIHDR :=
  {| lpData := lpData hdr;
     dwBufferLength := dwBufferLength hdr;
     dwBytesRecorded := dwBytesRecorded hdr;
     dwFlags := f |}.

#[global] Instance platform : Win32 world := {
  win_midiOutGetNumDevs w := (Z.of_nat (List.length (devs w)), w);
  win_midiOutGetDevCapsW i w :=
    match nth_error (devs w) (Z.to_nat i) with
    | Some (r, n) => (r, {| szPname := n |}, w)
    | None => (MMSYSERR_BADDEVICEID, {| szPname := [] |}, w)
    end;
  win_WideCharToMultiByte := convert;
  win_midiOutOpen d w :=
    if open_result w =? 0 then
      (0, Some (next_handle w),
       mkWorld (devs w) (open_result w) (short_result w) (prepare_result w)
               (long_result w) (unprepare_result w) (next_handle w + 1))
    else (open_result w, None, w);
  win_midiOutReset h w := (0, w);
  win_midiOutClose h w := (0, w);
  win_midiOutShortMsg h msg w := (short_result w, w);
  win_midiOutPrepareHeader h hdr w :=
    if prepare_result w =? 0 then (0, with_flags hdr MHDR_PREPARED, w)
    else (prepare_result w, hdr, w);
  win_midiOutLongMsg h hdr w := (long_result w, hdr, w);
  win_midiOutUnprepareHeader h hdr w :=
    if unprepare_result w =? 0 then (0, with_flags hdr 0, w)
    else (unprepare_result w, hdr, w)
}.

(** Two devices, every call succeeds. *)
Definition healthy : world :=
  mkWorld [(0, wide "Microsoft GS Wavetable Synth");
           (0, wide "USB MIDI Interface")]
          0 0 0 0 0 4096.

(** No device at all. *)
Definition empty : world := mkWorld [] 0 0 0 0 0 4096.

(** The preparation of a long-message buffer is refused
    (MMSYSERR_INVALPARAM). *)
Definition prepare_fails : world :=
  mkWorld [(0, wide "Microsoft GS Wavetable Synth")] 0 0 11 0 0 4096.

(** The short message is refused (MMSYSERR_NOTSUPPORTED). *)
Definition short_fails : world :=
  mkWorld [(0, wide "Microsoft GS Wavetable Synth")] 0 8 0 0 0 4096.

(** The long message is refused (MMSYSERR_NOMEM). *)
Definition long_fails : world :=
  mkWorld [(0, wide "Microsoft GS Wavetable Synth")] 0 0 0 7 0 4096.

(** The un-prepare is refused while the buffer is still in the queue
    (MIDIERR_STILLPLAYING); everything else succeeds. *)
Definition still_playing : world :=
  mkWorld [(0, wide "Microsoft GS Wavetable Synth")] 0 0 0 0 65 4096.

(** The device is in use: the platform open is refused
    (MMSYSERR_ALLOCATED). *)
Definition busy : world :=
  mkWorld [(0, wide "Microsoft GS Wavetable Synth")] 4 0 0 0 0 4096.

(** Two devices and every call succeeds, but the name of the second is
    one the conversion of this platform fails on: the measuring call
    answers 0. *)
Definition garbled : world :=
  mkWorld [(0, wide "Microsoft GS Wavetable Synth");
           (0, wide "USB " ++ [55296])]
          0 0 0 0 0 4096.

(** A note-on and a five-byte system-exclusive message. *)
Definition note_on : payload := Some [x90; x40].
Definition sysex : payload := Some [xf0; x01; x02; x03; xf7].

Definition closed (w : world) : Windows.state world :=
  Windows.mkState None w.

Definition opened (h : handle) (w : world) : Windows.state world :=
  Windows.mkState (Some h) w.

End Sim.

(** ** Vocabulary of the properties *)

Import Windows.

(** The platform calls of a run, in order. *)
Definition calls (evs : list event) : list winmm_call :=
  flat_map (fun e => match e with Call c => [c] | Log _ _ => [] end) evs.

(** The result code a platform call came back with; the device count
    query returns a count and has none. *)
Definition ret_code (c : winmm_call) : Z :=
  match c with
  | GetNumDevs _ => MMSYSERR_NOERROR
  | GetDevCapsW _ r _ => r
  | Open _ r _ => r
  | Reset _ r => r
  | Close _ r => r
  | ShortMsg _ _ r => r
  | PrepareHeader _ _ r => r
  | LongMsg _ _ r => r
  | UnprepareHeader _ _ r => r
  end.

Definition is_Open (c : winmm_call) : bool :=
  match c with Open _ _ _ => true | _ => false end.

Definition is_GetNumDevs (c : winmm_call) : bool :=
  match c with GetNumDevs _ => true | _ => false end.

Definition is_GetDevCapsW (c : winmm_call) : bool :=
  match c with GetDevCapsW _ _ _ => true | _ => false end.

Definition is_LongMsg (c : winmm_call) : bool :=
  match c with LongMsg _ _ _ => true | _ => false end.

Definition is_UnprepareHeader (c : winmm_call) : bool :=
  match c with UnprepareHeader _ _ _ => true | _ => false end.

(** The calls whose result [midi_send] looks at. *)
Definition examined (c : winmm_call) : bool :=
  match c with
  | ShortMsg _ _ _ | PrepareHeader _ _ _ | LongMsg _ _ _ => true
  | _ => false
  end.

Definition count (f : winmm_call -> bool) (evs : list event) : nat :=
  List.length (filter f (calls evs)).

(** A warning line that carries the number [code]. *)
Definition warns_with (code : Z) (evs : list event) : Prop :=
  exists msg, In (Log warning msg) evs /\ In (num code) msg.

(** Nothing but debug-level log lines: no platform call, nothing louder. *)
Definition debug_only (e : event) : bool :=
  match e with Log debug _ => true | _ => false end.

(** Byte [i] of a word. *)
Definition byte_of (w : Z) (i : Z) : Z := Z.land (Z.shiftr w (8 * i)) 255.

(** The packing rule in the words of the specification: byte 0 in the
    lowest 8 bits, byte 1 next, byte 2 next, missing bytes zero. *)
Definition spec_pack (data : payload) (length : Z) : Z :=
  u8 (index data 0)
  + 2 ^ 8 * (if 1 <? length then u8 (index data 1) else 0)
  + 2 ^ 16 * (if 2 <? length then u8 (index data 2) else 0).

(** The selection rule in the words of the specification: the first
    device whose name is exactly [device_name], else index 0. *)
Definition spec_select (device_name : string)
    (devices : list midi_device_info_t) : Z :=
  match find (fun dev => String.eqb (name dev) device_name) devices with
  | Some dev => to_UINT (id dev)
  | None => 0
  end.

(** *** Live handles

    A handle is live from the successful [midiOutOpen] that produced it
    until [midiOutClose] is called on it. *)
Definition live_step (live : list handle) (e : event) : list handle :=
  match e with
  | Call (Open _ r (Some h)) =>
      if r =? MMSYSERR_NOERROR then live ++ [h] else live
  | Call (Close h _) => remove Z.eq_dec h live
  | _ => live
  end.

Definition live_after (live : list handle) (evs : list event) : list handle :=
  fold_left live_step evs live.

(** The handles the adapter holds: the global one, if set. *)
Definition held {W} (s : state W) : list handle :=
  match midi_handle s with Some h => [h] | None => [] end.

(** *** Sequences of operations *)

Inductive op :=
| OpInit (input : input_t)
| OpDeinit
| OpListDevices
| OpOpen (device_name : string)
| OpClose
| OpSend (data : payload) (length : Z).

Section Scenario.
Context {W : Type} {P : Win32 W}.

(** One operation and its integer status (0 for those without one). *)
Definition run_op (o : op) : M (state W) Z :=
  match o with
  | OpInit input => midi_init input
  | OpDeinit => midi_deinit ;; ret 0
  | OpListDevices => midi_list_devices ;; ret 0
  | OpOpen device_name => midi_open device_name
  | OpClose => midi_close ;; ret 0
  | OpSend data length => midi_send data length
  end.

(** A sequence of operations, with how each ended.  The caller goes on
    after an operation that throws; a caller that lets the exception
    through has run the sequence up to that operation. *)
Fixpoint run_ops (ops : list op) (s : state W)
  : list (op * outcome Z) * state W * list event :=
  match ops with
  | [] => ([], s, [])
  | o :: rest =>
      let r := run_op o s in
      let rs := run_ops rest (state_of r) in
      ((o, result_of r) :: result_of rs, state_of rs,
       events_of r ++ events_of rs)
  end.

End Scenario.

(** A platform open that succeeded. *)
Definition open_succeeded (e : event) : bool :=
  match e with
  | Call (Open _ r _) => r =? MMSYSERR_NOERROR
  | _ => false
  end.

(** The device count the platform reported last in a run. *)
Definition reported_devices (evs : list event) : option Z :=
  fold_left (fun acc e =>
               match e with Call (GetNumDevs n) => Some n | _ => acc end)
            evs None.

(** The line [midi_open] logs once its search is over. *)
Definition select_log (device_name : string)
    (devices : list midi_device_info_t) : event :=
  match find (fun dev => String.eqb (name dev) device_name) devices with
  | Some dev =>
      Log info [sv "Found MIDI device '"; str device_name;
                sv "' at index "; num (to_UINT (id dev))]
  | None =>
      Log warning [sv "MIDI device '"; str device_name;
                   sv "' not found, using default"]
  end.

(** The events of an enumeration: device count and capability queries. *)
Definition enumeration_event (e : event) : bool :=
  match e with
  | Call (GetNumDevs _) | Call (GetDevCapsW _ _ _) => true
  | _ => false
  end.

(** Does [midi_open] search for [device_name]? *)
Definition by_name (device_name : string) : bool :=
  negb (String.eqb device_name "auto") && negb (String.eqb device_name "").

(** At most one handle is live before and after each event of [evs]. *)
Fixpoint within_one (live : list handle) (evs : list event) : bool :=
  (List.length live <=? 1)%nat
  && match evs with
     | [] => true
     | e :: rest => within_one (live_step live e) rest
     end.

(** The events that open or close a handle. *)
Definition handle_event (e : event) : bool :=
  match e with
  | Call (Open _ _ _) | Call (Close _ _) => true
  | _ => false
  end.

(** One long message was submitted and one un-prepare issued. *)
Definition submitted_and_released_once (evs : list event) : Prop :=
  count is_LongMsg evs = 1%nat /\ count is_UnprepareHeader evs = 1%nat.

(** How a status reflects the result codes of the calls picked by [sel]:
    a non-zero code among them makes the status [-1] and is logged in a
    warning, and the status is 0 only if all of them are zero. *)
Definition reports_failures (sel : winmm_call -> bool)
    (status : outcome Z) (evs : list event) : Prop :=
  (forall c, In c (calls evs) -> sel c = true ->
     ret_code c <> MMSYSERR_NOERROR ->
     status = Ret (-1) /\ warns_with (ret_code c) evs)
  /\ (status = Ret 0 ->
      forall c, In c (calls evs) -> sel c = true ->
        ret_code c = MMSYSERR_NOERROR).

(** Every platform call. *)
Definition any_call (c : winmm_call) : bool := true.

(** *** Enumeration, call targets and the stub backends *)

(** The indices [i], [i + 1], ..., [n] of them: those the enumeration
    loop visits from [i] on. *)
Fixpoint upto (n : nat) (i : Z) : list Z :=
  match n with
  | O => []
  | S n' => i :: upto n' (i + 1)
  end.

(** The capability queries of a run: the index asked for and the result
    code. *)
Definition queried (evs : list event) : list (Z * Z) :=
  flat_map (fun e =>
              match e with Call (GetDevCapsW i r _) => [(i, r)] | _ => [] end)
           evs.

Definition succeeded (q : Z * Z) : bool := snd q =? MMSYSERR_NOERROR.

(** The handle a platform call is made on, if it takes one. *)
Definition target (c : winmm_call) : HMIDIOUT :=
  match c with
  | Reset h _ | Close h _ | ShortMsg h _ _
  | PrepareHeader h _ _ | LongMsg h _ _ | UnprepareHeader h _ _ => Some h
  | GetNumDevs _ | GetDevCapsW _ _ _ | Open _ _ _ => None
  end.

(** The calls that carry a message: short send, prepare, long send,
    un-prepare. *)
Definition is_message (c : winmm_call) : bool :=
  match c with
  | ShortMsg _ _ _ | PrepareHeader _ _ _
  | LongMsg _ _ _ | UnprepareHeader _ _ _ => true
  | _ => false
  end.

(** One operation on the Linux stub, on the macOS stub. *)
Definition Linux_run_op (o : op) : M unit Z :=
  match o with
  | OpInit _ => Linux.midi_init
  | OpDeinit => Linux.midi_deinit ;; ret 0
  | OpListDevices => Linux.midi_list_devices ;; ret 0
  | OpOpen device_name => Linux.midi_open device_name
  | OpClose => Linux.midi_close ;; ret 0
  | OpSend data length => Linux.midi_send data length
  end.

Definition MacOS_run_op (o : op) : M unit Z :=
  match o with
  | OpInit _ => MacOS.midi_init
  | OpDeinit => MacOS.midi_deinit ;; ret 0
  | OpListDevices => MacOS.midi_list_devices ;; ret 0
  | OpOpen device_name => MacOS.midi_open device_name
  | OpClose => MacOS.midi_close ;; ret 0
  | OpSend data length => MacOS.midi_send data length
  end.

(** A sequence of operations of some backend, with the status of each. *)
Fixpoint run_seq {St} (f : op -> M St Z) (ops : list op)
  : M St (list (op * Z)) :=
  match ops with
  | [] => ret []
  | o :: rest =>
      r <- f o ;;
      rs <- run_seq f rest ;;
      ret ((o, r) :: rs)
  end.

(** The status a stub answers an operation with. *)
Definition stub_status (o : op) : Z :=
  match o with
  | OpOpen _ | OpSend _ _ => -1
  | _ => 0
  end.

(** *** Names, log lines and exceptions *)

(** The capability queries of a run with all they answered: index,
    result code, capability record. *)
Definition answered (evs : list event) : list (Z * Z * MIDIOUTCAPSW) :=
  flat_map (fun e =>
              match e with
              | Call (GetDevCapsW i r caps) => [(i, r, caps)]
              | _ => []
              end)
           evs.

(** The log lines of a run, in order. *)
Definition logs (evs : list event) : list (severity * list piece) :=
  flat_map (fun e => match e with Log l m => [(l, m)] | Call _ => [] end)
           evs.

(** What [midi_send] says of a call it examines. *)
Definition failure_text (c : winmm_call) : string :=
  match c with
  | ShortMsg _ _ _ => "MIDI short message send failed: error "
  | PrepareHeader _ _ _ => "MIDI prepare header failed: error "
  | LongMsg _ _ _ => "MIDI long message send failed: error "
  | _ => ""
  end.

(** The warning a call is worth: none when it returned zero. *)
Definition warning_for (c : winmm_call) : list (severity * list piece) :=
  if ret_code c =? MMSYSERR_NOERROR then []
  else [(warning, [sv (failure_text c); num (ret_code c)])].

Definition no_failure (c : winmm_call) : bool :=
  ret_code c =? MMSYSERR_NOERROR.

Section Names.
Context {W : Type} {P : Win32 W}.

(** The size the conversion reports for the product name of [caps], as
    the [int] the adapter receives. *)
Definition measured (caps : MIDIOUTCAPSW) : Z :=
  to_int (fst (win_WideCharToMultiByte (szPname caps) 0)).

(** The name the adapter gives a device whose capability record is
    [caps], when the measured size is positive: the bytes the conversion
    writes, in a string of that size less one. *)
Definition utf8_name (caps : MIDIOUTCAPSW) : string :=
  fill (string_of_list_ascii (repeat zero (Z.to_nat (measured caps - 1))))
       (snd (win_WideCharToMultiByte (szPname caps) (measured caps))).

(** The descriptor of an answered query. *)
Definition descriptor (q : Z * Z * MIDIOUTCAPSW) : midi_device_info_t :=
  {| id := to_int (fst (fst q)); name := utf8_name (snd q) |}.

(** A query that succeeded, and one after which the adapter can build a
    name: it failed, or the size measured for its name is positive. *)
Definition listed (q : Z * Z * MIDIOUTCAPSW) : bool :=
  snd (fst q) =? MMSYSERR_NOERROR.

Definition nameable (q : Z * Z * MIDIOUTCAPSW) : bool :=
  negb (listed q) || (1 <=? measured (snd q)).

End Names.

(** Did the run end with a value? *)
Definition returned {A} (o : outcome A) : bool :=
  match o with Ret _ => true | Throw _ => false end.

(** *** The search of midi_open and the answers of the platform *)

Section Selection.
Context {W : Type} {P : Win32 W}.

(** The search of [midi_open] as a run of its own: nothing for "auto"
    and for the empty name; else the enumeration and, when that returns
    a list, the device id picked in it and the line logged. *)
Definition select_run (device_name : string) (s : state W)
  : outcome Z * state W * list event :=
  if by_name device_name then
    let l := midi_list_devices s in
    match result_of l with
    | Ret devices =>
        (Ret (spec_select device_name devices), state_of l,
         events_of l ++ [select_log device_name devices])
    | Throw e => (Throw e, state_of l, events_of l)
    end
  else (Ret 0, s, []).

(** What the platform answers to the capability queries of the indices
    [i], [i + 1], ..., [n] of them, asked in this order from the world
    [w]: index, result code, capability record. *)
Fixpoint capabilities (n : nat) (i : Z) (w : W)
  : list (Z * Z * MIDIOUTCAPSW) :=
  match n with
  | O => []
  | S n' =>
      let q := win_midiOutGetDevCapsW i w in
      (i, fst (fst q), snd (fst q)) :: capabilities n' (i + 1) (snd q)
  end.

(** The answers of the platform to a full enumeration started in [s]:
    the count first, then one query for each index below it. *)
Definition platform_devices (s : state W) : list (Z * Z * MIDIOUTCAPSW) :=
  let p := win_midiOutGetNumDevs (world s) in
  capabilities (Z.to_nat (fst p)) 0 (snd p).

(** An answer of the platform that stands for the device called
    [device_name]: a query that succeeded, whose converted name is that
    name. *)
Definition named (device_name : string) (q : Z * Z * MIDIOUTCAPSW) : bool :=
  listed q && String.eqb (utf8_name (snd q)) device_name.

(** The device id an open by name arrives at from the answers [C] of
    the platform, and the line it logs about the search. *)
Definition platform_select (device_name : string)
    (C : list (Z * Z * MIDIOUTCAPSW)) : Z :=
  match find (named device_name) C with
  | Some q => to_UINT (to_int (fst (fst q)))
  | None => 0
  end.

Definition platform_select_log (device_name : string)
    (C : list (Z * Z * MIDIOUTCAPSW)) : event :=
  match find (named device_name) C with
  | Some q =>
      Log info [sv "Found MIDI device '"; str device_name;
                sv "' at index "; num (to_UINT (to_int (fst (fst q))))]
  | None =>
      Log warning [sv "MIDI device '"; str device_name;
                   sv "' not found, using default"]
  end.

End Selection.

(** The events of the enumeration loop: capability queries. *)
Definition capability_event (e : event) : bool :=
  match e with
  | Call (GetDevCapsW _ _ _) => true
  | _ => false
  end.

(** The line [midi_init] logs for a device. *)
Definition device_line (dev : midi_device_info_t) : event :=
  Log info [sv "  MIDI device "; num (id dev); sv ": "; str (name dev)].

(** The lines [midi_init] logs once the enumeration has returned. *)
Definition init_lines (devices : list midi_device_info_t) : list event :=
  Log info [sv "Found "; num (Z.of_nat (List.length devices));
            sv " MIDI output device(s)"]
  :: map device_line devices.

(** Does [midi_init] open the configured device? *)
Definition configured (input : input_t) : bool :=
  midi input && negb (String.eqb (midi_device input) "").

(** * Properties *)

(** ** Arithmetic of the short-message word *)

Lemma u8_range (b : byte) : 0 <= u8 b < 256.
Proof. destruct b; vm_compute; split; congruence. Qed.

Lemma to_DWORD_small (z : Z) : 0 <= z < 2 ^ 32 -> to_DWORD z = z.
Proof. intros H. unfold to_DWORD. apply Z.mod_small. exact H. Qed.

Lemma lor_shiftl_add (a b k : Z) :
  0 <= k -> 0 <= a < 2 ^ k -> Z.lor a (Z.shiftl b k) = a + b * 2 ^ k.
Proof.
  intros Hk Ha.
  rewrite <- Z.shiftl_mul_pow2 by exact Hk.
  assert (Hdisj : Z.land a (Z.shiftl b k) = 0);
    [| rewrite <- (Z.lxor_lor _ _ Hdisj); symmetry;
       apply Z.add_nocarry_lxor; exact Hdisj].
  apply Z.bits_inj'. intros n Hn.
  rewrite Z.land_spec, Z.bits_0.
  destruct (Z.lt_ge_cases n k) as [Hlt | Hge].
  - rewrite (Z.shiftl_spec_low b k n Hlt). apply andb_false_r.
  - rewrite <- (Z.mod_small a (2 ^ k)) by exact Ha.
    rewrite Z.mod_pow2_bits_high by lia. reflexivity.
Qed.

Lemma byte_of_div (w i : Z) : 0 <= i -> byte_of w i = (w / 2 ^ (8 * i)) mod 256.
Proof.
  intros Hi. unfold byte_of.
  rewrite Z.shiftr_div_pow2 by lia.
  change 255 with (Z.ones 8). rewrite Z.land_ones by lia. reflexivity.
Qed.

Lemma short_msg_spec_pack (data : payload) (length : Z) :
  short_msg data length = spec_pack data length.
Proof.
  unfold short_msg, spec_pack.
  pose proof (u8_range (index data 0)) as H0.
  pose proof (u8_range (index data 1)) as H1.
  pose proof (u8_range (index data 2)) as H2.
  change (2 ^ 8) with 256. change (2 ^ 16) with 65536.
  rewrite !(to_DWORD_small (u8 _)) by lia.
  rewrite !Z.shiftl_mul_pow2 by lia.
  change (2 ^ 8) with 256. change (2 ^ 16) with 65536.
  rewrite (to_DWORD_small (u8 (index data 1) * 256)) by lia.
  rewrite (to_DWORD_small (u8 (index data 2) * 65536)) by lia.
  rewrite <- (Z.shiftl_mul_pow2 _ 8), <- (Z.shiftl_mul_pow2 _ 16) by lia.
  destruct (1 <? length), (2 <? length).
  - rewrite (lor_shiftl_add _ _ 8) by lia.
    rewrite (lor_shiftl_add _ _ 16) by lia. lia.
  - rewrite (lor_shiftl_add _ _ 8) by lia. lia.
  - rewrite (lor_shiftl_add _ _ 16) by lia. lia.
  - lia.
Qed.

Lemma spec_pack_bytes (a b c : Z) :
  0 <= a < 256 -> 0 <= b < 256 -> 0 <= c < 256 ->
  let w := a + 2 ^ 8 * b + 2 ^ 16 * c in
  byte_of w 0 = a /\ byte_of w 1 = b /\ byte_of w 2 = c /\ Z.shiftr w 24 = 0.
Proof.
  intros Ha Hb Hc w. subst w.
  rewrite !byte_of_div by lia. rewrite Z.shiftr_div_pow2 by lia.
  change (2 ^ (8 * 0)) with 1. change (2 ^ (8 * 1)) with 256.
  change (2 ^ (8 * 2)) with 65536. change (2 ^ 24) with 16777216.
  change (2 ^ 8) with 256. change (2 ^ 16) with 65536.
  repeat split.
  - rewrite Z.div_1_r. 
    replace (a + 256 * b + 65536 * c) with (a + (b + 256 * c) * 256) by lia.
    rewrite Z.mod_add by lia. apply Z.mod_small; lia.
  - replace (a + 256 * b + 65536 * c) with (a + (b + 256 * c) * 256) by lia.
    rewrite Z.div_add by lia. rewrite (Z.div_small a 256) by lia.
    replace (0 + (b + 256 * c)) with (b + c * 256) by lia.
    rewrite Z.mod_add by lia. apply Z.mod_small; lia.
  - replace (a + 256 * b + 65536 * c) with (a + 256 * b + c * 65536) by lia.
    rewrite Z.div_add by lia. rewrite (Z.div_small (a + 256 * b) 65536) by lia.
    apply Z.mod_small; lia.
  - apply Z.div_small; lia.
Qed.

(** ** Running the monad *)

Lemma bind_run {St A B} (m : M St A) (k : A -> M St B) (s : St) :
  bind m k s =
    match result_of (m s) with
    | Ret a =>
        (result_of (k a (state_of (m s))),
         state_of (k a (state_of (m s))),
         events_of (m s) ++ events_of (k a (state_of (m s))))
    | Throw e => (Throw e, state_of (m s), events_of (m s))
    end.
Proof.
  unfold bind, result_of, state_of, events_of.
  destruct (m s) as [[[a | e] s1] e1]; cbn; [| reflexivity].
  destruct (k a s1) as [[b s2] e2]. reflexivity.
Qed.

Lemma run_eta {St A} (r : A * St * list event) :
  r = (result_of r, state_of r, events_of r).
Proof. destruct r as [[a s] e]. reflexivity. Qed.

Lemma calls_app (e1 e2 : list event) : calls (e1 ++ e2) = calls e1 ++ calls e2.
Proof. unfold calls. apply flat_map_app. Qed.

Lemma live_after_app (live : list handle) (e1 e2 : list event) :
  live_after live (e1 ++ e2) = live_after (live_after live e1) e2.
Proof. unfold live_after. apply fold_left_app. Qed.

Lemma to_int_range (z : Z) : - 2 ^ 31 <= to_int z < 2 ^ 31.
Proof.
  unfold to_int.
  pose proof (Z.mod_pos_bound (z + 2 ^ 31) (2 ^ 32) ltac:(lia)). lia.
Qed.

(** ** The Windows adapter *)

Section Properties.
Context {W : Type} {P : Win32 W}.

(** *** midi_close *)

Lemma midi_close_closed (s : state W) :
  midi_handle s = None -> midi_close s = (Ret tt, s, []).
Proof.
  intros H. unfold midi_close, bind, get_handle. rewrite H. reflexivity.
Qed.

Lemma midi_close_open (s : state W) (hd : handle) :
  midi_handle s = Some hd ->
  midi_close s =
    (Ret tt,
     mkState None
       (snd (win_midiOutClose hd (snd (win_midiOutReset hd (world s))))),
     [Call (Reset hd (fst (win_midiOutReset hd (world s))));
      Call (Close hd (fst (win_midiOutClose hd
                             (snd (win_midiOutReset hd (world s))))));
      Log debug [sv "Closed MIDI output device"]]).
Proof.
  intros H. unfold midi_close, bind, get_handle. rewrite H.
  unfold midiOutReset, midiOutClose, set_handle, BOOST_LOG, emit.
  destruct (win_midiOutReset hd (world s)) as [rr w1]. cbn.
  destruct (win_midiOutClose hd w1) as [rc w2]. reflexivity.
Qed.

Lemma midi_close_returns (s : state W) : result_of (midi_close s) = Ret tt.
Proof.
  destruct (midi_handle s) as [hd |] eqn:H.
  - rewrite (midi_close_open s hd H). reflexivity.
  - rewrite (midi_close_closed s H). reflexivity.
Qed.

Lemma midi_close_handle (s : state W) :
  midi_handle (state_of (midi_close s)) = None.
Proof.
  destruct (midi_handle s) as [hd |] eqn:H.
  - rewrite (midi_close_open s hd H). reflexivity.
  - rewrite (midi_close_closed s H). exact H.
Qed.

Lemma midi_close_live (s : state W) :
  live_after (held s) (events_of (midi_close s)) = [].
Proof.
  unfold held. destruct (midi_handle s) as [hd |] eqn:H.
  - rewrite (midi_close_open s hd H). cbn.
    destruct (Z.eq_dec hd hd) as [_ | N]; [reflexivity | contradiction].
  - rewrite (midi_close_closed s H). reflexivity.
Qed.

(** *** midi_list_devices *)

(** Building the string for a name: it throws exactly when the size
    measured is not positive. *)
Lemma std_string_run (len : Z) (ch : ascii) (s : state W) :
  - 2 ^ 31 <= len < 2 ^ 31 ->
  std_string (to_size_t (len - 1)) ch s =
    if 1 <=? len
    then (Ret (string_of_list_ascii (repeat ch (Z.to_nat (len - 1)))), s, [])
    else (Throw length_error, s, []).
Proof.
  intros H. unfold std_string, to_size_t, string_max_size.
  rewrite Z.gtb_ltb.
  destruct (Z.leb_spec 1 len) as [E | E].
  - rewrite Z.mod_small by lia.
    destruct (Z.ltb_spec (2 ^ 63 - 1) (len - 1)); [lia | reflexivity].
  - replace ((len - 1) mod 2 ^ 64) with (len - 1 + 2 ^ 64).
    + destruct (Z.ltb_spec (2 ^ 63 - 1) (len - 1 + 2 ^ 64));
        [reflexivity | lia].
    + symmetry. rewrite <- (Z.mod_add _ 1) by lia.
      apply Z.mod_small. lia.
Qed.

(** One round of the enumeration loop: the query; when it fails, the
    next round; when it succeeds and the size measured for the name is
    positive, the next round with the descriptor appended; else the
    exception. *)
Lemma list_devices_loop_step (n : nat) (i : Z)
    (devices : list midi_device_info_t) (s : state W) :
  let q := win_midiOutGetDevCapsW i (world s) in
  let r := fst (fst q) in
  let caps := snd (fst q) in
  let s1 := mkState (midi_handle s) (snd q) in
  let ev := Call (GetDevCapsW i r caps) in
  list_devices_loop (S n) i devices s =
    if negb (r =? MMSYSERR_NOERROR) then
      (result_of (list_devices_loop n (i + 1) devices s1),
       state_of (list_devices_loop n (i + 1) devices s1),
       ev :: events_of (list_devices_loop n (i + 1) devices s1))
    else if 1 <=? measured caps then
      (result_of (list_devices_loop n (i + 1)
                    (devices ++ [descriptor (i, r, caps)]) s1),
       state_of (list_devices_loop n (i + 1)
                   (devices ++ [descriptor (i, r, caps)]) s1),
       ev :: events_of (list_devices_loop n (i + 1)
                          (devices ++ [descriptor (i, r, caps)]) s1))
    else (Throw length_error, s1, [ev]).
Proof.
  cbv zeta. cbn [list_devices_loop]. unfold bind at 1, midiOutGetDevCapsW.
  destruct (win_midiOutGetDevCapsW i (world s)) as [[r caps] w1].
  cbn [fst snd]. destruct (r =? MMSYSERR_NOERROR); cbn [negb].
  - unfold bind. fold (measured caps).
    rewrite (std_string_run (measured caps) zero _ (to_int_range _)).
    destruct (1 <=? measured caps); [| reflexivity].
    unfold descriptor, utf8_name. cbn [fst snd].
    destruct (list_devices_loop n _ _ _) as [[o s2] e2]. reflexivity.
  - destruct (list_devices_loop n _ _ _) as [[o s2] e2]. reflexivity.
Qed.

Lemma midi_list_devices_run (s : state W) :
  let p := win_midiOutGetNumDevs (world s) in
  let r := list_devices_loop (Z.to_nat (fst p)) 0 []
             (mkState (midi_handle s) (snd p)) in
  midi_list_devices s
  = (result_of r, state_of r, Call (GetNumDevs (fst p)) :: events_of r).
Proof.
  cbv zeta. unfold midi_list_devices, bind, midiOutGetNumDevs.
  destruct (win_midiOutGetNumDevs (world s)) as [n w1]. cbn [fst snd].
  destruct (list_devices_loop _ _ _ _) as [[o s2] e2]. reflexivity.
Qed.

Lemma list_devices_loop_inv (n : nat) :
  forall (i : Z) (devices : list midi_device_info_t) (s : state W),
    midi_handle (state_of (list_devices_loop n i devices s)) = midi_handle s
    /\ forallb enumeration_event
         (events_of (list_devices_loop n i devices s)) = true.
Proof.
  induction n as [| n IH]; intros i devices s; [split; reflexivity |].
  rewrite list_devices_loop_step.
  destruct (negb _); [| destruct (1 <=? _); [| split; reflexivity]];
    cbn [result_of state_of events_of fst snd];
    match goal with
    | |- context [list_devices_loop n ?j ?d ?t] =>
        destruct (IH j d t) as [Hh He]
    end;
    (split; [exact Hh | cbn; exact He]).
Qed.

Lemma midi_list_devices_inv (s : state W) :
  midi_handle (state_of (midi_list_devices s)) = midi_handle s
  /\ forallb enumeration_event (events_of (midi_list_devices s)) = true.
Proof.
  rewrite midi_list_devices_run.
  cbn [result_of state_of events_of fst snd].
  destruct (list_devices_loop_inv
              (Z.to_nat (fst (win_midiOutGetNumDevs (world s)))) 0 []
              (mkState (midi_handle s)
                 (snd (win_midiOutGetNumDevs (world s))))) as [Hh He].
  split; [exact Hh | cbn; exact He].
Qed.

(** *** The search loop of midi_open *)

Lemma find_device_run (device_name : string)
    (devices : list midi_device_info_t) (d0 : Z) (s : state W) :
  find_device device_name devices d0 s =
    match find (fun dev => String.eqb (name dev) device_name) devices with
    | Some dev =>
        (Ret (to_UINT (id dev), true), s,
         [Log info [sv "Found MIDI device '"; str device_name;
                    sv "' at index "; num (to_UINT (id dev))]])
    | None => (Ret (d0, false), s, [])
    end.
Proof.
  induction devices as [| dev rest IH]; [reflexivity |].
  cbn [find_device find].
  destruct (String.eqb (name dev) device_name); [reflexivity | exact IH].
Qed.
(** *** midi_send *)

(** The run of [midi_send] when it gives up before any platform call. *)
Lemma midi_send_benign_run (s : state W) (data : payload) (length : Z) :
  midi_handle s = None \/ length = 0 \/ data = None ->
  midi_send data length s =
    (Ret (-1), s,
     match midi_handle s with
     | None => [Log debug [sv "MIDI send called but no device open"]]
     | Some _ => []
     end).
Proof.
  intros H. unfold midi_send, bind, get_handle.
  destruct (midi_handle s) as [hd |] eqn:Hh; [| reflexivity].
  destruct H as [H | [H | H]]; [discriminate | subst length | subst data].
  - reflexivity.
  - rewrite orb_true_r. reflexivity.
Qed.

(** The run of [midi_send] on the short-message path. *)
Lemma midi_send_short_run
    (s : state W) (hd : handle) (data : payload) (length : Z) :
  midi_handle s = Some hd -> is_nullptr data = false ->
  length <> 0 -> length <= 3 ->
  let msg := short_msg data length in
  let p := win_midiOutShortMsg hd msg (world s) in
  midi_send data length s =
    if fst p =? MMSYSERR_NOERROR then
      (Ret 0, mkState (Some hd) (snd p), [Call (ShortMsg hd msg (fst p))])
    else
      (Ret (-1), mkState (Some hd) (snd p),
       [Call (ShortMsg hd msg (fst p));
        Log warning [sv "MIDI short message send failed: error ";
                     num (fst p)]]).
Proof.
  intros Hh Hd H0 H3 msg p. unfold midi_send, bind, get_handle.
  rewrite Hh, Hd.
  replace (length =? 0) with false by (symmetry; apply Z.eqb_neq; exact H0).
  replace (length <=? 3) with true by (symmetry; apply Z.leb_le; exact H3).
  cbn [orb]. fold msg. unfold midiOutShortMsg. rewrite Hh. fold p.
  destruct p as [rc w']. cbn [fst snd].
  destruct (rc =? MMSYSERR_NOERROR); reflexivity.
Qed.

(** The run of [midi_send] on the long-message path. *)
Lemma midi_send_long_run
    (s : state W) (hd : handle) (data : payload) (length : Z) :
  midi_handle s = Some hd -> is_nullptr data = false -> 3 < length ->
  let hdr := sysex_header data length in
  let p := win_midiOutPrepareHeader hd hdr (world s) in
  let g := win_midiOutLongMsg hd (snd (fst p)) (snd p) in
  let u := win_midiOutUnprepareHeader hd (snd (fst g)) (snd g) in
  midi_send data length s =
    if fst (fst p) =? MMSYSERR_NOERROR then
      (Ret (if fst (fst g) =? MMSYSERR_NOERROR then 0 else -1),
       mkState (Some hd) (snd u),
       [Call (PrepareHeader hd hdr (fst (fst p)));
        Call (LongMsg hd (snd (fst p)) (fst (fst g)));
        Call (UnprepareHeader hd (snd (fst g)) (fst (fst u)))]
       ++ if fst (fst g) =? MMSYSERR_NOERROR then []
          else [Log warning [sv "MIDI long message send failed: error ";
                             num (fst (fst g))]])
    else
      (Ret (-1), mkState (Some hd) (snd p),
       [Call (PrepareHeader hd hdr (fst (fst p)));
        Log warning [sv "MIDI prepare header failed: error ";
                     num (fst (fst p))]]).
Proof.
  intros Hh Hd H3 hdr p g u. unfold midi_send, bind, get_handle.
  rewrite Hh, Hd.
  replace (length =? 0) with false by (symmetry; apply Z.eqb_neq; lia).
  replace (length <=? 3) with false by (symmetry; apply Z.leb_gt; exact H3).
  cbn [orb]. fold hdr. unfold midiOutPrepareHeader. rewrite Hh.
  subst u g. fold p. destruct p as [[rp hdr1] w1]. cbn [fst snd].
  destruct (rp =? MMSYSERR_NOERROR); [| reflexivity].
  cbn [negb]. unfold midiOutLongMsg, midiOutUnprepareHeader.
  cbn [midi_handle world].
  destruct (win_midiOutLongMsg hd hdr1 w1) as [[rl hdr2] w2].
  cbn [fst snd midi_handle world].
  destruct (win_midiOutUnprepareHeader hd hdr2 w2) as [[ru hdr3] w3].
  cbn [fst snd]. destruct (rl =? MMSYSERR_NOERROR); reflexivity.
Qed.

(** C1. With a device open, a non-null payload and [1 <= length <= 3],
    [midi_send] issues exactly one platform call, a short-message send
    whose word holds byte 0 in bits 0-7, byte 1 in bits 8-15 and byte 2 in
    bits 16-23, a missing byte being zero and nothing above bit 23; the
    word does not depend on the result code the platform answers with,
    and the payload [0x90, 0x40] packs to [0x4090]. *)
Theorem short_message_packing
    (s : state W) (hd : handle) (data : payload) (length : Z) :
  midi_handle s = Some hd ->
  is_nullptr data = false ->
  1 <= length <= 3 ->
  let msg := short_msg data length in
  calls (events_of (midi_send data length s))
    = [ShortMsg hd msg (fst (win_midiOutShortMsg hd msg (world s)))]
  /\ msg = spec_pack data length
  /\ byte_of msg 0 = u8 (index data 0)
  /\ byte_of msg 1 = (if 1 <? length then u8 (index data 1) else 0)
  /\ byte_of msg 2 = (if 2 <? length then u8 (index data 2) else 0)
  /\ Z.shiftr msg 24 = 0
  /\ short_msg (Some [x90; x40]) 2 = 0x4090.
Proof.
  intros Hh Hd Hlen msg. split.
  - rewrite (midi_send_short_run s hd data length Hh Hd) by lia. fold msg.
    destruct (fst (win_midiOutShortMsg hd msg (world s)) =? MMSYSERR_NOERROR);
      reflexivity.
  - subst msg. rewrite short_msg_spec_pack. unfold spec_pack.
    pose proof (u8_range (index data 0)) as H0.
    pose proof (u8_range (index data 1)) as H1.
    pose proof (u8_range (index data 2)) as H2.
    assert (Hb : 0 <= (if 1 <? length then u8 (index data 1) else 0) < 256)
      by (destruct (1 <? length); lia).
    assert (Hc : 0 <= (if 2 <? length then u8 (index data 2) else 0) < 256)
      by (destruct (2 <? length); lia).
    destruct (spec_pack_bytes _ _ _ H0 Hb Hc) as (E0 & E1 & E2 & E3).
    repeat split; assumption || reflexivity.
Qed.

(** C5. [midi_send] returns [-1] and leaves the state alone whenever no
    device is open, whatever the payload, and also when [length] is 0 or
    [data] is null with a device open; such a run produces at most
    debug-level log lines and no platform call. *)
Theorem send_rejects_benign
    (s : state W) (data : payload) (length : Z) :
  midi_handle s = None \/ length = 0 \/ data = None ->
  result_of (midi_send data length s) = Ret (-1)
  /\ state_of (midi_send data length s) = s
  /\ forallb debug_only (events_of (midi_send data length s)) = true
  /\ calls (events_of (midi_send data length s)) = [].
Proof.
  intros H. rewrite (midi_send_benign_run s data length H).
  destruct (midi_handle s); repeat split; reflexivity.
Qed.

(** C2, as the code has it.  With a device open, a non-null payload and
    [length > 3], [midi_send] hands the buffer to the platform's prepare
    step.  If that step succeeds, the buffer is submitted as one long
    message and un-prepared exactly once right after, whatever the
    submission returned.  If the prepare step fails, [midi_send] returns
    [-1] and neither submits nor un-prepares. *)
Theorem long_message_cleanup
    (s : state W) (hd : handle) (data : payload) (length : Z) :
  midi_handle s = Some hd ->
  is_nullptr data = false ->
  3 < length ->
  let hdr := sysex_header data length in
  let p := win_midiOutPrepareHeader hd hdr (world s) in
  let g := win_midiOutLongMsg hd (snd (fst p)) (snd p) in
  let u := win_midiOutUnprepareHeader hd (snd (fst g)) (snd g) in
  let r := midi_send data length s in
  Some (lpData hdr) = data
  /\ (fst (fst p) = MMSYSERR_NOERROR ->
        calls (events_of r)
        = [PrepareHeader hd hdr MMSYSERR_NOERROR;
           LongMsg hd (snd (fst p)) (fst (fst g));
           UnprepareHeader hd (snd (fst g)) (fst (fst u))]
        /\ submitted_and_released_once (events_of r))
  /\ (fst (fst p) <> MMSYSERR_NOERROR ->
        calls (events_of r) = [PrepareHeader hd hdr (fst (fst p))]
        /\ result_of r = Ret (-1)).
Proof.
  intros Hh Hd H3 hdr p g u r. split; [| split].
  - destruct data; [reflexivity | discriminate].
  - intros Hp. subst r. rewrite (midi_send_long_run s hd data length Hh Hd H3).
    fold hdr p g u. rewrite Hp. rewrite Z.eqb_refl. cbn [events_of snd].
    unfold submitted_and_released_once, count. rewrite calls_app.
    destruct (fst (fst g) =? _); repeat split; reflexivity.
  - intros Hp. subst r. rewrite (midi_send_long_run s hd data length Hh Hd H3).
    fold hdr p g u. apply Z.eqb_neq in Hp. rewrite Hp. split; reflexivity.
Qed.

(** How the status of [midi_send] and its warnings follow the calls it
    examines. *)
Lemma midi_send_reports_examined
    (s : state W) (data : payload) (length : Z) :
  let r := midi_send data length s in
  reports_failures examined (result_of r) (events_of r)
  /\ (result_of r = Ret 0 \/ result_of r = Ret (-1))
  /\ (midi_handle s <> None -> is_nullptr data = false -> length <> 0 ->
      (forall c, In c (calls (events_of r)) -> examined c = true ->
         ret_code c = MMSYSERR_NOERROR) ->
      result_of r = Ret 0).
Proof.
  intros r. subst r. unfold reports_failures.
  destruct (midi_handle s) as [hd |] eqn:Hh.
  2:{ rewrite (midi_send_benign_run s data length) by (left; exact Hh).
      rewrite Hh. cbn [result_of events_of fst snd calls flat_map].
      split; [split | split].
      - intros c [].
      - discriminate.
      - right. reflexivity.
      - intros N. destruct N. reflexivity. }
  destruct data as [buf |].
  2:{ rewrite (midi_send_benign_run s None length)
        by (right; right; reflexivity).
      rewrite Hh. cbn [result_of events_of fst snd calls flat_map].
      split; [split | split].
      - intros c [].
      - discriminate.
      - right. reflexivity.
      - discriminate. }
  destruct (Z.eq_dec length 0) as [-> | H0].
  { rewrite (midi_send_benign_run s (Some buf) 0)
      by (right; left; reflexivity).
    rewrite Hh. cbn [result_of events_of fst snd calls flat_map].
    split; [split | split].
    - intros c [].
    - discriminate.
    - right. reflexivity.
    - intros _ _ N. destruct N. reflexivity. }
  destruct (Z_le_gt_dec length 3) as [H3 | H3].
  - rewrite (midi_send_short_run s hd (Some buf) length Hh eq_refl H0 H3).
    set (rc := fst (win_midiOutShortMsg hd _ _)).
    destruct (rc =? MMSYSERR_NOERROR) eqn:E;
      cbn [result_of events_of fst snd calls flat_map app];
      [apply Z.eqb_eq in E | apply Z.eqb_neq in E];
      (split; [split | split]).
    + intros c [<- | []] _ N. destruct (N E).
    + intros _ c [<- | []] _. exact E.
    + left. reflexivity.
    + reflexivity.
    + intros c [<- | []] _ _. split; [reflexivity |].
      eexists. split; [right; left; reflexivity | right; left; reflexivity].
    + discriminate.
    + right. reflexivity.
    + intros _ _ _ H. destruct E.
      exact (H _ (or_introl eq_refl) eq_refl).
  - assert (H3' : 3 < length) by lia.
    rewrite (midi_send_long_run s hd (Some buf) length Hh eq_refl H3').
    set (hdr := sysex_header _ _).
    set (p := win_midiOutPrepareHeader hd hdr (world s)).
    set (g := win_midiOutLongMsg hd _ _).
    set (u := win_midiOutUnprepareHeader hd _ _).
    destruct (fst (fst p) =? MMSYSERR_NOERROR) eqn:Ep;
      [destruct (fst (fst g) =? MMSYSERR_NOERROR) eqn:Eg |];
      cbn [result_of events_of fst snd calls flat_map app];
      rewrite ?Z.eqb_eq, ?Z.eqb_neq in *;
      (split; [split | split]).
    + intros c [<- | [<- | [<- | []]]] Hx N;
        [destruct (N Ep) | destruct (N Eg) | discriminate Hx].
    + intros _ c [<- | [<- | [<- | []]]] Hx;
        [exact Ep | exact Eg | discriminate Hx].
    + left. reflexivity.
    + reflexivity.
    + intros c [<- | [<- | [<- | []]]] Hx N;
        [destruct (N Ep) | | discriminate Hx].
      split; [reflexivity |].
      eexists.
      split; [do 3 right; left; reflexivity | right; left; reflexivity].
    + discriminate.
    + right. reflexivity.
    + intros _ _ _ H. destruct Eg.
      exact (H _ (or_intror (or_introl eq_refl)) eq_refl).
    + intros c [<- | []] _ _. split; [reflexivity |].
      eexists. split; [right; left; reflexivity | right; left; reflexivity].
    + discriminate.
    + right. reflexivity.
    + intros _ _ _ H. destruct Ep.
      exact (H _ (or_introl eq_refl) eq_refl).
Qed.

(** The log lines and the status of [midi_send], from the calls it
    examines alone. *)
Lemma midi_send_logs (s : state W) (data : payload) (length : Z) :
  let r := midi_send data length s in
  logs (events_of r)
  = (if is_nullptr (midi_handle s)
     then [(debug, [sv "MIDI send called but no device open"])]
     else flat_map warning_for (filter examined (calls (events_of r))))
  /\ (midi_handle s <> None -> is_nullptr data = false -> length <> 0 ->
      result_of r
      = Ret (if forallb no_failure (filter examined (calls (events_of r)))
             then 0 else -1)).
Proof.
  intros r. subst r.
  destruct (midi_handle s) as [hd |] eqn:Hh.
  2:{ rewrite (midi_send_benign_run s data length) by (left; exact Hh).
      rewrite Hh. split; [reflexivity |]. intros N. destruct N. reflexivity. }
  cbn [is_nullptr].
  destruct data as [buf |].
  2:{ rewrite (midi_send_benign_run s None length)
        by (right; right; reflexivity).
      rewrite Hh. split; [reflexivity | discriminate]. }
  destruct (Z.eq_dec length 0) as [-> | H0].
  { rewrite (midi_send_benign_run s (Some buf) 0)
      by (right; left; reflexivity).
    rewrite Hh. split; [reflexivity |]. intros _ _ N. destruct N. reflexivity. }
  destruct (Z_le_gt_dec length 3) as [H3 | H3].
  - rewrite (midi_send_short_run s hd (Some buf) length Hh eq_refl H0 H3).
    set (rc := fst (win_midiOutShortMsg hd _ _)).
    destruct (rc =? MMSYSERR_NOERROR) eqn:E;
      cbn [result_of events_of fst snd calls flat_map app filter examined
           logs forallb];
      unfold warning_for, no_failure; cbn [ret_code failure_text];
      rewrite E; split; reflexivity.
  - assert (H3' : 3 < length) by lia.
    rewrite (midi_send_long_run s hd (Some buf) length Hh eq_refl H3').
    set (hdr := sysex_header _ _).
    set (p := win_midiOutPrepareHeader hd hdr (world s)).
    set (g := win_midiOutLongMsg hd _ _).
    set (u := win_midiOutUnprepareHeader hd _ _).
    destruct (fst (fst p) =? MMSYSERR_NOERROR) eqn:Ep;
      [destruct (fst (fst g) =? MMSYSERR_NOERROR) eqn:Eg |];
      cbn [result_of events_of fst snd calls flat_map app filter examined
           logs forallb];
      unfold warning_for, no_failure; cbn [ret_code failure_text];
      rewrite ?Ep, ?Eg; split; reflexivity.
Qed.

(** C3, as the code has it.  A non-zero result code of the short-message
    send, of the header preparation or of the long-message send makes
    [midi_send] return [-1] and log a warning that carries the code; the
    status is 0 only if each of these calls returned zero, and is 0
    whenever they all did on a call with a device open and a non-empty,
    non-null payload.  The result of the un-prepare call plays no part:
    with a device open, the log lines of the run are the warnings of the
    examined calls that failed and nothing else, and with a non-empty,
    non-null payload the status is 0 or [-1] according to whether the
    examined calls all returned zero. *)
Theorem send_status_reflects_examined_calls
    (s : state W) (data : payload) (length : Z) :
  let r := midi_send data length s in
  reports_failures examined (result_of r) (events_of r)
  /\ (result_of r = Ret 0 \/ result_of r = Ret (-1))
  /\ (midi_handle s <> None -> is_nullptr data = false -> length <> 0 ->
      (forall c, In c (calls (events_of r)) -> examined c = true ->
         ret_code c = MMSYSERR_NOERROR) ->
      result_of r = Ret 0)
  /\ logs (events_of r)
     = (if is_nullptr (midi_handle s)
        then [(debug, [sv "MIDI send called but no device open"])]
        else flat_map warning_for (filter examined (calls (events_of r))))
  /\ (midi_handle s <> None -> is_nullptr data = false -> length <> 0 ->
      result_of r
      = Ret (if forallb no_failure (filter examined (calls (events_of r)))
             then 0 else -1)).
Proof.
  intros r.
  destruct (midi_send_reports_examined s data length) as (H1 & H2 & H3).
  destruct (midi_send_logs s data length) as (H4 & H5).
  split; [exact H1 |]. split; [exact H2 |]. split; [exact H3 |].
  split; [exact H4 | exact H5].
Qed.
(** *** Live handles along a run *)

Lemma live_after_quiet (live : list handle) (evs : list event) :
  existsb handle_event evs = false -> live_after live evs = live.
Proof.
  revert live. induction evs as [| e evs IH]; intros live H; [reflexivity |].
  cbn in H. apply orb_false_iff in H. destruct H as [He H].
  cbn. rewrite <- (IH live H) at 2. f_equal.
  destruct e as [[] |]; try discriminate; reflexivity.
Qed.

Lemma within_one_quiet (live : list handle) (evs : list event) :
  (List.length live <= 1)%nat ->
  existsb handle_event evs = false -> within_one live evs = true.
Proof.
  intros Hl. induction evs as [| e evs IH]; intros H.
  - cbn. rewrite andb_true_r. apply Nat.leb_le. exact Hl.
  - cbn in H. apply orb_false_iff in H. destruct H as [He H].
    cbn [within_one]. apply andb_true_iff.
    split; [apply Nat.leb_le; exact Hl |].
    replace (live_step live e) with live; [exact (IH H) |].
    destruct e as [[] |]; try discriminate; reflexivity.
Qed.

Lemma within_one_app (live : list handle) (e1 e2 : list event) :
  within_one live (e1 ++ e2)
  = within_one live e1 && within_one (live_after live e1) e2.
Proof.
  revert live. induction e1 as [| e e1 IH]; intros live.
  - cbn [app within_one live_after fold_left]. rewrite andb_true_r.
    destruct e2; cbn [within_one]; destruct (List.length live <=? 1)%nat;
      reflexivity.
  - cbn [app within_one]. rewrite IH, andb_assoc. reflexivity.
Qed.

Lemma within_one_prefix (live : list handle) (evs : list event) :
  within_one live evs = true ->
  forall pre post, evs = pre ++ post ->
    (List.length (live_after live pre) <= 1)%nat.
Proof.
  revert live. induction evs as [| e evs IH]; intros live H pre post E.
  - destruct pre; [| discriminate]. cbn in *.
    rewrite andb_true_r in H. apply Nat.leb_le. exact H.
  - cbn [within_one] in H. apply andb_true_iff in H. destruct H as [Hl H].
    destruct pre as [| e' pre].
    + cbn. apply Nat.leb_le. exact Hl.
    + cbn in E. injection E as <- E. cbn. exact (IH _ H pre post E).
Qed.

Lemma enumeration_quiet (evs : list event) :
  forallb enumeration_event evs = true -> existsb handle_event evs = false.
Proof.
  induction evs as [| e evs IH]; intros H; [reflexivity |].
  cbn in H. apply andb_true_iff in H. destruct H as [He H].
  cbn. rewrite (IH H), orb_false_r.
  destruct e as [[] |]; try discriminate; reflexivity.
Qed.

Lemma count_app (f : winmm_call -> bool) (e1 e2 : list event) :
  count f (e1 ++ e2) = (count f e1 + count f e2)%nat.
Proof. unfold count. rewrite calls_app, filter_app. apply length_app. Qed.

(** *** midi_open, step by step *)

(** The search block of [midi_open] is the run [select_run]. *)
Lemma select_run_eq (device_name : string) (s : state W) :
  (if negb (String.eqb device_name "auto")
      && negb (String.eqb device_name "") then
     devices <- midi_list_devices ;;
     '(device_id, found) <- find_device device_name devices 0 ;;
     (if negb found then
        BOOST_LOG warning [sv "MIDI device '"; str device_name;
                           sv "' not found, using default"]
      else ret tt) ;;
     ret device_id
   else ret 0) s
  = select_run device_name s.
Proof.
  unfold select_run. fold (by_name device_name).
  destruct (by_name device_name); [| reflexivity].
  unfold bind at 1.
  destruct (midi_list_devices s) as [[[devices | e] s1] e1];
    cbn [result_of state_of events_of fst snd]; [| reflexivity].
  unfold bind at 1. rewrite find_device_run.
  unfold spec_select, select_log.
  destruct (find _ devices) as [dev |]; cbn; rewrite ?app_nil_r; reflexivity.
Qed.

(** The search leaves the handle alone and neither opens nor closes
    anything; it can only throw [std::length_error], and only when it
    enumerates. *)
Lemma select_run_quiet (device_name : string) (s : state W) :
  existsb handle_event (events_of (select_run device_name s)) = false
  /\ midi_handle (state_of (select_run device_name s)) = midi_handle s
  /\ (forall e, result_of (select_run device_name s) = Throw e ->
        e = length_error /\ by_name device_name = true
        /\ result_of (midi_list_devices s) = Throw e
        /\ events_of (select_run device_name s)
           = events_of (midi_list_devices s)).
Proof.
  unfold select_run. destruct (midi_list_devices_inv s) as [Hh He].
  apply enumeration_quiet in He.
  destruct (by_name device_name);
    [| repeat split; try reflexivity; discriminate].
  destruct (result_of (midi_list_devices s)) as [devices | e] eqn:El;
    cbn [result_of state_of events_of fst snd].
  - split; [| split; [exact Hh | discriminate]].
    rewrite existsb_app, He. unfold select_log.
    destruct (find _ _); reflexivity.
  - split; [exact He |]. split; [exact Hh |].
    intros e' _. destruct e, e'. repeat split.
Qed.

(** The run of [midi_open], spelled out from the runs of its parts: the
    implicit close, the search, the device count and the platform
    open. *)
Lemma midi_open_run (device_name : string) (s : state W) :
  let c := midi_close s in
  let sr := select_run device_name (state_of c) in
  midi_open device_name s =
    match result_of sr with
    | Throw e => (Throw e, state_of sr, events_of c ++ events_of sr)
    | Ret device_id =>
        let pn := win_midiOutGetNumDevs (world (state_of sr)) in
        let po := win_midiOutOpen device_id (snd pn) in
        let pre :=
          events_of c ++ events_of sr ++ [Call (GetNumDevs (fst pn))] in
        if fst pn =? 0 then
          (Ret (-1), mkState (midi_handle (state_of sr)) (snd pn),
           pre ++ [Log warning [sv "No MIDI output devices available"]])
        else if fst (fst po) =? MMSYSERR_NOERROR then
          (Ret 0, mkState (snd (fst po)) (snd po),
           pre ++ [Call (Open device_id (fst (fst po)) (snd (fst po)));
                   Log info [sv "Opened MIDI output device ";
                             num device_id]])
        else
          (Ret (-1), mkState None (snd po),
           pre ++ [Call (Open device_id (fst (fst po)) (snd (fst po)));
                   Log error [sv "Failed to open MIDI device: error ";
                              num (fst (fst po))]])
    end.
Proof.
  intros c sr. unfold midi_open.
  assert (Hc : bind get_handle
                 (fun h => if is_nullptr h then ret tt else midi_close) s = c).
  { subst c. unfold bind at 1, get_handle.
    destruct (midi_handle s) as [hd |] eqn:Hh; cbn [is_nullptr].
    - destruct (midi_close s) as [[o s1] e1]. destruct o; reflexivity.
    - rewrite (midi_close_closed s Hh). reflexivity. }
  unfold bind at 1. unfold get_handle at 1.
  unfold bind at 1.
  unfold bind at 1 in Hc. unfold get_handle at 1 in Hc.
  pose proof (midi_close_returns s) as Hret. fold c in Hret.
  rewrite (run_eta c), Hret in Hc.
  destruct ((if is_nullptr (midi_handle s) then ret tt else midi_close) s)
    as [[u s1] e1].
  destruct u as [[] | e]; [| discriminate Hc].
  cbn [app] in Hc. injection Hc as Hs1 He1.
  unfold bind at 1. rewrite select_run_eq. rewrite Hs1. fold sr.
  rewrite (run_eta sr) at 1.
  destruct (result_of sr) as [device_id | e]; [| rewrite He1; reflexivity].
  cbv zeta. unfold bind at 1, midiOutGetNumDevs at 1.
  cbn [world midi_handle].
  destruct (win_midiOutGetNumDevs (world (state_of sr))) as [n w3].
  cbn [fst snd]. destruct (n =? 0).
  - rewrite He1. cbn. rewrite <- !app_assoc. reflexivity.
  - unfold bind at 1, midiOutOpen at 1. cbn [world].
    destruct (win_midiOutOpen device_id w3) as [[ro h] w4]. cbn [fst snd].
    destruct (ro =? MMSYSERR_NOERROR); rewrite He1; cbn;
      rewrite <- !app_assoc; reflexivity.
Qed.

Lemma midi_close_quiet_open (s : state W) :
  existsb open_succeeded (events_of (midi_close s)) = false
  /\ count is_Open (events_of (midi_close s)) = 0%nat
  /\ within_one (held s) (events_of (midi_close s)) = true.
Proof.
  unfold held. destruct (midi_handle s) as [hd |] eqn:H.
  - rewrite (midi_close_open s hd H). cbn.
    destruct (Z.eq_dec hd hd) as [_ | N]; [| contradiction].
    repeat split; reflexivity.
  - rewrite (midi_close_closed s H). repeat split; reflexivity.
Qed.

(** The common opening of the proofs about [midi_open]: unfold the run,
    name the search [sr], record in [Hq] and [Hh] that it opens and
    closes nothing and that no handle is held after it, and tell the
    run that goes on with a [device_id] from the one that throws. *)
Ltac open_prelude device_name s :=
  rewrite midi_open_run;
  destruct (select_run_quiet device_name (state_of (midi_close s)))
    as (Hq & Hh & Ht);
  rewrite (midi_close_handle s) in Hh;
  set (sr := select_run device_name (state_of (midi_close s))) in *;
  destruct (result_of sr) as [device_id | e]; cbv zeta; rewrite ?Hh.

(** One [midi_open]: never more than one live handle along the way, and
    at the end the live handles are those the adapter holds. *)
Lemma midi_open_live (device_name : string) (s : state W) :
  within_one (held s) (events_of (midi_open device_name s)) = true
  /\ live_after (held s) (events_of (midi_open device_name s))
     = held (state_of (midi_open device_name s)).
Proof.
  destruct (midi_close_quiet_open s) as (_ & _ & Hc1).
  pose proof (midi_close_live s) as Hc2.
  open_prelude device_name s.
  2:{ cbn [events_of state_of fst snd].
      rewrite within_one_app, live_after_app, Hc1, Hc2.
      rewrite (within_one_quiet [] _ ltac:(cbn; lia) Hq),
        (live_after_quiet _ _ Hq).
      unfold held. rewrite Hh. split; reflexivity. }
  assert (Hsel1 : within_one [] (events_of sr) = true)
    by (apply within_one_quiet; [cbn; lia | exact Hq]).
  assert (Hsel2 : live_after [] (events_of sr) = [])
    by (apply live_after_quiet; exact Hq).
  destruct (_ =? 0).
  - cbn [result_of state_of events_of fst snd].
    rewrite !within_one_app, !live_after_app, Hc1, Hc2, Hsel1, Hsel2.
    split; reflexivity.
  - destruct (_ =? MMSYSERR_NOERROR) eqn:Ho;
      cbn [result_of state_of events_of fst snd];
      rewrite !within_one_app, !live_after_app, Hc1, Hc2, Hsel1, Hsel2;
      cbn; rewrite Ho; unfold held; cbn [midi_handle];
      destruct (snd (fst _)); split; reflexivity.
Qed.

(** The events of [midi_open] begin with those of the implicit close. *)
Lemma midi_open_closes_first (s : state W) (device_name : string) :
  exists rest,
    events_of (midi_open device_name s) = events_of (midi_close s) ++ rest.
Proof.
  rewrite midi_open_run. cbv zeta.
  destruct (result_of (select_run _ _));
    [destruct (_ =? 0); [| destruct (_ =? MMSYSERR_NOERROR)] |];
    cbn [events_of snd]; rewrite <- ?app_assoc; eexists; reflexivity.
Qed.

(** *** Device selection and availability *)

Lemma quiet_no_open (evs : list event) :
  existsb handle_event evs = false -> count is_Open evs = 0%nat.
Proof.
  induction evs as [| e evs IH]; intros H; [reflexivity |].
  cbn in H. apply orb_false_iff in H. destruct H as [He H].
  change (e :: evs) with ([e] ++ evs). rewrite count_app, (IH H).
  destruct e as [[] |]; try discriminate; reflexivity.
Qed.

Lemma reported_devices_app (e1 e2 : list event) :
  reported_devices (e1 ++ e2)
  = fold_left (fun acc e =>
                 match e with Call (GetNumDevs n) => Some n | _ => acc end)
              e2 (reported_devices e1).
Proof. unfold reported_devices. apply fold_left_app. Qed.

Lemma list_devices_loop_capability (n : nat) :
  forall (i : Z) (devices : list midi_device_info_t) (s : state W),
    forallb capability_event (events_of (list_devices_loop n i devices s))
    = true.
Proof.
  induction n as [| n IH]; intros i devices s; [reflexivity |].
  rewrite list_devices_loop_step.
  destruct (negb _); [| destruct (1 <=? _); [| reflexivity]];
    cbn [events_of snd forallb capability_event andb]; apply IH.
Qed.

Lemma reported_devices_capability (evs : list event) (acc : option Z) :
  forallb capability_event evs = true ->
  fold_left (fun acc e =>
               match e with Call (GetNumDevs n) => Some n | _ => acc end)
            evs acc = acc.
Proof.
  revert acc. induction evs as [| e evs IH]; intros acc H; [reflexivity |].
  cbn in H. apply andb_true_iff in H. destruct H as [He H].
  cbn [fold_left]. rewrite (IH _ H).
  destruct e as [[] |]; try discriminate; reflexivity.
Qed.

(** The count an enumeration was told, and that it is positive when the
    enumeration throws. *)
Lemma midi_list_devices_reported (s : state W) (pre : list event) :
  reported_devices (pre ++ events_of (midi_list_devices s))
  = Some (fst (win_midiOutGetNumDevs (world s)))
  /\ (forall e, result_of (midi_list_devices s) = Throw e ->
        0 < fst (win_midiOutGetNumDevs (world s))).
Proof.
  rewrite midi_list_devices_run. cbn [result_of events_of fst snd]. split.
  - rewrite reported_devices_app. cbn [fold_left].
    apply reported_devices_capability, list_devices_loop_capability.
  - intros e. destruct (fst (win_midiOutGetNumDevs (world s))) as [| p | p];
      cbn [Z.to_nat]; try discriminate. lia.
Qed.

(** C6. When the platform reports zero output devices, [midi_open]
    returns [-1] without any platform open call, whatever the device
    name, and holds no handle afterwards. *)
Theorem open_without_devices (s : state W) (device_name : string) :
  reported_devices (events_of (midi_open device_name s)) = Some 0 ->
  result_of (midi_open device_name s) = Ret (-1)
  /\ count is_Open (events_of (midi_open device_name s)) = 0%nat
  /\ midi_handle (state_of (midi_open device_name s)) = None.
Proof.
  destruct (midi_close_quiet_open s) as (_ & Hc & _).
  open_prelude device_name s.
  2:{ intros H. exfalso. cbn [events_of snd] in H.
      destruct (Ht e eq_refl) as (_ & _ & Hl & Hev). rewrite Hev in H.
      destruct (midi_list_devices_reported (state_of (midi_close s))
                  (events_of (midi_close s))) as [Hr Hp].
      rewrite Hr in H. specialize (Hp e Hl). injection H as H. lia. }
  set (n := fst (win_midiOutGetNumDevs (world (state_of sr)))).
  destruct (n =? 0) eqn:Hn.
  - intros _. cbn [result_of state_of events_of fst snd midi_handle].
    rewrite !count_app, Hc, (quiet_no_open _ Hq). repeat split; reflexivity.
  - intros H. exfalso. apply Z.eqb_neq in Hn. apply Hn.
    destruct (_ =? MMSYSERR_NOERROR);
      cbn [events_of snd] in H;
      rewrite <- !app_assoc, (app_assoc _ (events_of sr)),
        reported_devices_app in H;
      cbn [app fold_left] in H; congruence.
Qed.

Lemma select_run_default (device_name : string) (s : state W) :
  by_name device_name = false -> select_run device_name s = (Ret 0, s, []).
Proof. intros H. unfold select_run. rewrite H. reflexivity. Qed.

(** C8. [midi_open "auto"] and [midi_open ""] are the same run: same
    status, same final state, same events.  Neither queries the
    capabilities of any device; the only device-count query is the
    availability check, and the platform open, when attempted, is for
    device index 0. *)
Theorem open_auto_same_as_empty (s : state W) :
  midi_open "auto" s = midi_open "" s
  /\ count is_GetDevCapsW (events_of (midi_open "auto" s)) = 0%nat
  /\ count is_GetNumDevs (events_of (midi_open "auto" s)) = 1%nat
  /\ (forall d rc h,
        In (Open d rc h) (calls (events_of (midi_open "auto" s))) -> d = 0).
Proof.
  rewrite !midi_open_run.
  rewrite (select_run_default "auto" _ eq_refl),
    (select_run_default "" _ eq_refl).
  cbv zeta. cbn [result_of state_of events_of fst snd].
  split; [reflexivity |].
  assert (Hc : exists cs, calls (events_of (midi_close s)) = cs
                 /\ filter is_GetDevCapsW cs = []
                 /\ filter is_GetNumDevs cs = []
                 /\ forall d rc h, ~ In (Open d rc h) cs).
  { destruct (midi_handle s) as [hd |] eqn:Hh.
    - rewrite (midi_close_open s hd Hh). eexists. split; [reflexivity |].
      repeat split. intros d rc h [H | [H | []]]; discriminate.
    - rewrite (midi_close_closed s Hh). eexists. split; [reflexivity |].
      repeat split. intros d rc h []. }
  destruct Hc as (cs & Ecs & H1 & H2 & H3).
  destruct (_ =? 0); [| destruct (_ =? MMSYSERR_NOERROR)];
    cbn [result_of state_of events_of fst snd];
    rewrite <- ?app_assoc; cbn [app];
    unfold count; rewrite !calls_app, Ecs, !filter_app, H1, H2;
    (split; [reflexivity | split; [reflexivity |]]);
    intros d rc h Hin; apply in_app_or in Hin;
    (destruct Hin as [Hin | Hin]; [destruct (H3 _ _ _ Hin) |]);
    cbn in Hin; intuition congruence.
Qed.

Lemma by_name_true (device_name : string) :
  device_name <> "auto" -> device_name <> "" -> by_name device_name = true.
Proof.
  intros Ha He. unfold by_name.
  apply String.eqb_neq in Ha. apply String.eqb_neq in He.
  rewrite Ha, He. reflexivity.
Qed.

Lemma find_first {A} (f : A -> bool) (l : list A) (x : A) :
  find f l = Some x ->
  f x = true
  /\ exists before after,
       l = before ++ x :: after /\ forall y, In y before -> f y = false.
Proof.
  induction l as [| a l IH]; [discriminate |].
  cbn. destruct (f a) eqn:Fa.
  - intros [= ->]. split; [exact Fa |].
    exists [], l. split; [reflexivity | intros y []].
  - intros H. destruct (IH H) as (Fx & before & after & E & Hb).
    split; [exact Fx |]. exists (a :: before), after. split.
    + rewrite E. reflexivity.
    + intros y [<- | Hy]; [exact Fa | exact (Hb y Hy)].
Qed.

(** *** Failed opens *)

Lemma quiet_no_success (evs : list event) :
  existsb handle_event evs = false -> existsb open_succeeded evs = false.
Proof.
  induction evs as [| e evs IH]; intros H; [reflexivity |].
  cbn in H. apply orb_false_iff in H. destruct H as [He H].
  cbn. rewrite (IH H), orb_false_r.
  destruct e as [[] |]; try discriminate; reflexivity.
Qed.

(** [midi_open] returns 0 with a successful platform open among its
    events, or it returns [-1] or throws [std::length_error], with none
    and no handle left. *)
Lemma midi_open_status (device_name : string) (s : state W) :
  let r := midi_open device_name s in
  (result_of r = Ret 0 /\ existsb open_succeeded (events_of r) = true)
  \/ ((result_of r = Ret (-1) \/ result_of r = Throw length_error)
      /\ existsb open_succeeded (events_of r) = false
      /\ midi_handle (state_of r) = None).
Proof.
  cbv zeta. destruct (midi_close_quiet_open s) as (Hc & _ & _).
  open_prelude device_name s; apply quiet_no_success in Hq.
  2:{ right. cbn [result_of state_of events_of fst snd].
      destruct (Ht e eq_refl) as (-> & _).
      rewrite existsb_app, Hc, Hq. repeat split; try exact Hh.
      right. reflexivity. }
  destruct (_ =? 0).
  - right. cbn [result_of state_of events_of fst snd midi_handle].
    rewrite !existsb_app, Hc, Hq. repeat split. left. reflexivity.
  - destruct (_ =? MMSYSERR_NOERROR) eqn:Ho; [left | right];
      cbn [result_of state_of events_of fst snd midi_handle];
      rewrite !existsb_app, Hc, Hq; cbn; rewrite Ho; repeat split.
    left. reflexivity.
Qed.

Lemma log_devices_run (devices : list midi_device_info_t) (s : state W) :
  log_devices devices s = (Ret tt, s, map device_line devices).
Proof.
  induction devices as [| dev rest IH]; [reflexivity |].
  cbn [log_devices]. rewrite bind_run.
  cbn [result_of state_of events_of fst snd BOOST_LOG emit].
  rewrite IH. reflexivity.
Qed.

Lemma midi_deinit_run (s : state W) :
  midi_deinit s
  = (Ret tt, state_of (midi_close s),
     Log info [sv "Shutting down MIDI subsystem"] :: events_of (midi_close s)).
Proof.
  unfold midi_deinit. rewrite bind_run.
  cbn [result_of state_of events_of fst snd BOOST_LOG emit].
  rewrite midi_close_returns. reflexivity.
Qed.

(** The run of [midi_init], spelled out from the runs of its parts: the
    enumeration, the lines, and [midi_open] when a device is
    configured. *)
Lemma midi_init_run (input : input_t) (s : state W) :
  let l := midi_list_devices s in
  let q0 := Log info [sv "Initializing MIDI subsystem"] :: events_of l in
  midi_init input s =
    match result_of l with
    | Throw e => (Throw e, state_of l, q0)
    | Ret devices =>
        let q := q0 ++ init_lines devices in
        if configured input then
          let o := midi_open (midi_device input) (state_of l) in
          match result_of o with
          | Ret st =>
              (Ret 0, state_of o,
               q ++ events_of o
                 ++ [if st =? 0
                     then Log info
                            [sv "MIDI output device opened successfully"]
                     else Log warning
                            [sv "Failed to open MIDI output device"]])
          | Throw e => (Throw e, state_of o, q ++ events_of o)
          end
        else (Ret 0, state_of l, q)
    end.
Proof.
  cbv zeta. unfold midi_init. fold (configured input).
  rewrite bind_run. cbn [result_of state_of events_of fst snd BOOST_LOG emit].
  rewrite bind_run.
  destruct (result_of (midi_list_devices s)) as [devices | e];
    cbn [result_of state_of events_of fst snd app]; [| reflexivity].
  rewrite bind_run. cbn [result_of state_of events_of fst snd BOOST_LOG emit].
  rewrite bind_run, log_devices_run.
  cbn [result_of state_of events_of fst snd].
  rewrite bind_run.
  destruct (configured input).
  - rewrite bind_run.
    destruct (result_of (midi_open _ _)) as [st | e];
      cbn [result_of state_of events_of fst snd].
    + destruct (st =? 0);
        cbn [result_of state_of events_of fst snd BOOST_LOG emit ret];
        unfold init_lines; cbn [app]; rewrite <- ?app_assoc; cbn [app];
        rewrite ?app_nil_r; reflexivity.
    + unfold init_lines. cbn [app]. rewrite <- ?app_assoc. reflexivity.
  - cbn [result_of state_of events_of fst snd ret].
    unfold init_lines. cbn [app]. rewrite <- ?app_assoc, ?app_nil_r.
    reflexivity.
Qed.

Lemma init_lines_quiet (devices : list midi_device_info_t) :
  existsb handle_event (init_lines devices) = false.
Proof.
  unfold init_lines. cbn [existsb handle_event orb].
  induction devices as [| dev rest IH]; [reflexivity | exact IH].
Qed.

(** With no handle held, an operation that sees no successful platform
    open leaves none held; a send fails. *)
Lemma run_op_closed (o : op) (s : state W) :
  midi_handle s = None ->
  existsb open_succeeded (events_of (run_op o s)) = false ->
  midi_handle (state_of (run_op o s)) = None
  /\ (forall data length,
        o = OpSend data length -> result_of (run_op o s) = Ret (-1)).
Proof.
  intros Hs He.
  destruct o as [input | | | device_name | | data length]; cbn [run_op] in *;
    (split; [| intros ? ? [=]]).
  - rewrite midi_init_run in *. cbv zeta in *.
    destruct (midi_list_devices_inv s) as [Hh _]. rewrite Hs in Hh.
    destruct (result_of (midi_list_devices s)) as [devices | e];
      [| exact Hh].
    destruct (configured input); [| exact Hh].
    destruct (midi_open_status (midi_device input)
                (state_of (midi_list_devices s)))
      as [[H0 H1] | (H0 & H1 & H2)].
    + rewrite H0 in He. cbn [events_of snd] in He.
      rewrite !existsb_app, H1 in He.
      repeat rewrite ?orb_true_r, ?orb_true_l, ?orb_false_l in He.
      discriminate.
    + destruct H0 as [H0 | H0]; rewrite H0; exact H2.
  - rewrite bind_run, midi_deinit_run.
    cbn [result_of state_of events_of fst snd ret].
    apply midi_close_handle.
  - rewrite bind_run. destruct (midi_list_devices_inv s) as [Hh _].
    destruct (result_of (midi_list_devices s));
      cbn [result_of state_of events_of fst snd ret]; rewrite Hh; exact Hs.
  - destruct (midi_open_status device_name s) as [[H0 H1] | (H0 & H1 & H2)].
    + rewrite H1 in He. discriminate.
    + exact H2.
  - rewrite bind_run, midi_close_returns.
    cbn [result_of state_of events_of fst snd ret].
    apply midi_close_handle.
  - rewrite (midi_send_benign_run s data length (or_introl Hs)). exact Hs.
  - rewrite (midi_send_benign_run s _ _ (or_introl Hs)). reflexivity.
Qed.

Lemma run_ops_closed (ops : list op) :
  forall s : state W,
    midi_handle s = None ->
    existsb open_succeeded (events_of (run_ops ops s)) = false ->
    forall data length st,
      In (OpSend data length, st) (result_of (run_ops ops s)) ->
      st = Ret (-1).
Proof.
  induction ops as [| o rest IH]; intros s Hs He data length st Hin.
  - destruct Hin.
  - cbn [run_ops] in *. cbv zeta in *.
    cbn [result_of state_of events_of fst snd] in *.
    rewrite existsb_app in He.
    apply orb_false_iff in He. destruct He as [He1 He2].
    destruct (run_op_closed o s Hs He1) as [Hh Hsend].
    destruct Hin as [Hin | Hin].
    + injection Hin as -> <-. exact (Hsend data length eq_refl).
    + exact (IH _ Hh He2 data length st Hin).
Qed.

(** C10. Whenever [midi_open] returns [-1] no handle is held afterwards,
    also when a device was open before the call: that device has been
    closed and is not restored.  From then on every [midi_send] returns
    [-1], through any sequence of operations, for as long as no platform
    open succeeds. *)
Theorem failed_open_leaves_closed (s : state W) (device_name : string) :
  result_of (midi_open device_name s) = Ret (-1) ->
  let s' := state_of (midi_open device_name s) in
  midi_handle s' = None
  /\ (forall hd, midi_handle s = Some hd ->
        exists rc,
          In (Call (Close hd rc)) (events_of (midi_open device_name s)))
  /\ (forall data length, result_of (midi_send data length s') = Ret (-1))
  /\ (forall ops,
        existsb open_succeeded (events_of (run_ops ops s')) = false ->
        forall data length st,
          In (OpSend data length, st) (result_of (run_ops ops s')) ->
          st = Ret (-1)).
Proof.
  intros Hr s'.
  assert (Hs' : midi_handle s' = None).
  { destruct (midi_open_status device_name s) as [[H0 _] | (_ & _ & H2)].
    - rewrite H0 in Hr. discriminate.
    - exact H2. }
  split; [exact Hs' |]. split; [| split].
  - intros hd Hh.
    destruct (midi_open_closes_first s device_name) as [rest E].
    rewrite E, (midi_close_open s hd Hh).
    eexists. cbn. right. left. reflexivity.
  - intros data length.
    rewrite (midi_send_benign_run s' data length (or_introl Hs')). reflexivity.
  - intros ops. apply run_ops_closed. exact Hs'.
Qed.

(** *** The handle invariant along any sequence of operations *)

Lemma held_same (s1 s2 : state W) :
  midi_handle s1 = midi_handle s2 -> held s1 = held s2.
Proof. unfold held. intros ->. reflexivity. Qed.

Lemma held_length (s : state W) : (List.length (held s) <= 1)%nat.
Proof. unfold held. destruct (midi_handle s); cbn; lia. Qed.

(** [midi_send] neither opens nor closes a handle. *)
Lemma midi_send_quiet (s : state W) (data : payload) (length : Z) :
  existsb handle_event (events_of (midi_send data length s)) = false
  /\ midi_handle (state_of (midi_send data length s)) = midi_handle s.
Proof.
  destruct (midi_handle s) as [hd |] eqn:Hh.
  2:{ rewrite (midi_send_benign_run s data length (or_introl Hh)), Hh.
      split; [reflexivity | exact Hh]. }
  destruct data as [buf |].
  2:{ rewrite (midi_send_benign_run s None length)
        by (right; right; reflexivity).
      rewrite Hh. split; [reflexivity | exact Hh]. }
  destruct (Z.eq_dec length 0) as [-> | H0].
  { rewrite (midi_send_benign_run s (Some buf) 0)
      by (right; left; reflexivity).
    rewrite Hh. split; [reflexivity | exact Hh]. }
  destruct (Z_le_gt_dec length 3) as [H3 | H3].
  - rewrite (midi_send_short_run s hd (Some buf) length Hh eq_refl H0 H3).
    destruct (_ =? MMSYSERR_NOERROR); split; reflexivity.
  - assert (H3' : 3 < length) by lia.
    rewrite (midi_send_long_run s hd (Some buf) length Hh eq_refl H3').
    destruct (_ =? MMSYSERR_NOERROR); [| split; reflexivity].
    destruct (_ =? MMSYSERR_NOERROR); split; reflexivity.
Qed.

Lemma within_one_quiet_l (live : list handle) (q evs : list event) :
  (List.length live <= 1)%nat -> existsb handle_event q = false ->
  within_one live (q ++ evs) = within_one live evs
  /\ live_after live (q ++ evs) = live_after live evs.
Proof.
  intros Hl Hq.
  rewrite within_one_app, live_after_app, (live_after_quiet _ _ Hq),
    (within_one_quiet _ _ Hl Hq).
  split; reflexivity.
Qed.

Lemma within_one_quiet_r (live : list handle) (evs q : list event) :
  existsb handle_event q = false ->
  within_one live (evs ++ q) = within_one live evs
  /\ live_after live (evs ++ q) = live_after live evs.
Proof.
  intros Hq.
  rewrite within_one_app, live_after_app, (live_after_quiet _ _ Hq).
  split; [| reflexivity].
  destruct (within_one live evs) eqn:E; [| reflexivity].
  apply within_one_quiet; [| exact Hq].
  apply (within_one_prefix live evs E evs []). symmetry. apply app_nil_r.
Qed.

(** Each operation keeps at most one handle live throughout and ends
    with the live handles being those the adapter holds. *)
Lemma run_op_live (o : op) (s : state W) :
  within_one (held s) (events_of (run_op o s)) = true
  /\ live_after (held s) (events_of (run_op o s))
     = held (state_of (run_op o s)).
Proof.
  pose proof (held_length s) as Hl.
  destruct o as [input | | | device_name | | data length]; cbn [run_op].
  - rewrite midi_init_run. cbv zeta.
    destruct (midi_list_devices_inv s) as [Hh He].
    apply enumeration_quiet in He. apply held_same in Hh.
    assert (Hq0 : existsb handle_event
                    (Log info [sv "Initializing MIDI subsystem"]
                       :: events_of (midi_list_devices s)) = false)
      by exact He.
    destruct (result_of (midi_list_devices s)) as [devices | e];
      cbn [events_of state_of fst snd].
    2:{ rewrite (within_one_quiet _ _ Hl Hq0), (live_after_quiet _ _ Hq0).
        split; [reflexivity | symmetry; exact Hh]. }
    assert (Hq : existsb handle_event
                   ((Log info [sv "Initializing MIDI subsystem"]
                       :: events_of (midi_list_devices s))
                      ++ init_lines devices) = false)
      by (rewrite existsb_app, Hq0, init_lines_quiet; reflexivity).
    destruct (configured input); cbn [events_of state_of fst snd].
    2:{ rewrite (within_one_quiet _ _ Hl Hq), (live_after_quiet _ _ Hq).
        split; [reflexivity | symmetry; exact Hh]. }
    destruct (midi_open_live (midi_device input)
                (state_of (midi_list_devices s))) as [H1 H2].
    rewrite Hh in H1, H2.
    destruct (result_of (midi_open _ _)) as [st | e];
      cbn [events_of state_of fst snd].
    + destruct (within_one_quiet_l (held s) _
                  (events_of (midi_open (midi_device input)
                                (state_of (midi_list_devices s)))
                     ++ [if st =? 0
                         then Log info
                                [sv "MIDI output device opened successfully"]
                         else Log warning
                                [sv "Failed to open MIDI output device"]])
                  Hl Hq) as [-> ->].
      destruct (within_one_quiet_r (held s)
                  (events_of (midi_open (midi_device input)
                                (state_of (midi_list_devices s))))
                  [if st =? 0
                   then Log info [sv "MIDI output device opened successfully"]
                   else Log warning [sv "Failed to open MIDI output device"]])
        as [-> ->]; [destruct (st =? 0); reflexivity |].
      split; assumption.
    + destruct (within_one_quiet_l (held s) _
                  (events_of (midi_open (midi_device input)
                                (state_of (midi_list_devices s))))
                  Hl Hq) as [-> ->].
      split; assumption.
  - rewrite bind_run, midi_deinit_run.
    cbn [result_of state_of events_of fst snd ret].
    destruct (midi_close_quiet_open s) as (_ & _ & Hc).
    rewrite app_nil_r. cbn [app within_one live_after fold_left live_step].
    fold (live_after (held s) (events_of (midi_close s))).
    rewrite Hc, midi_close_live. unfold held. rewrite midi_close_handle.
    split; [| reflexivity].
    apply andb_true_iff. split; [apply Nat.leb_le; exact Hl | reflexivity].
  - rewrite bind_run. destruct (midi_list_devices_inv s) as [Hh He].
    apply enumeration_quiet in He.
    destruct (result_of (midi_list_devices s));
      cbn [result_of state_of events_of fst snd ret]; rewrite ?app_nil_r;
      rewrite (within_one_quiet _ _ Hl He), (live_after_quiet _ _ He);
      (split; [reflexivity | symmetry; apply held_same; exact Hh]).
  - apply midi_open_live.
  - rewrite bind_run, midi_close_returns.
    cbn [result_of state_of events_of fst snd ret].
    destruct (midi_close_quiet_open s) as (_ & _ & Hc).
    rewrite app_nil_r, Hc, midi_close_live. unfold held.
    rewrite midi_close_handle. split; reflexivity.
  - destruct (midi_send_quiet s data length) as [Hq Hh].
    rewrite (within_one_quiet _ _ Hl Hq), (live_after_quiet _ _ Hq).
    split; [reflexivity | symmetry; apply held_same; exact Hh].
Qed.

Lemma run_ops_live (ops : list op) :
  forall s : state W,
    within_one (held s) (events_of (run_ops ops s)) = true.
Proof.
  induction ops as [| o rest IH]; intros s.
  - apply within_one_quiet; [apply held_length | reflexivity].
  - cbn [run_ops]. cbv zeta. cbn [result_of state_of events_of fst snd].
    destruct (run_op_live o s) as [H1 H2].
    rewrite within_one_app, H1, H2. apply IH.
Qed.

(** C4. Every [midi_open] begins with the close of the handle the adapter
    holds (reset, close, clear), so that nothing is live when the
    platform open is attempted; after it the live handles are exactly the
    one the adapter holds; along two opens in succession, whatever the
    two names, and along any sequence of operations of the adapter, there
    is never more than one live handle. *)
Theorem at_most_one_live_handle
    (s : state W) (device_name1 device_name2 : string) :
  let r1 := midi_open device_name1 s in
  let r := (midi_open device_name1 ;; midi_open device_name2) s in
  (exists rest,
      events_of r1 = events_of (midi_close s) ++ rest
      /\ live_after (held s) (events_of (midi_close s)) = []
      /\ count is_Open (events_of (midi_close s)) = 0%nat)
  /\ (forall hd, midi_handle s = Some hd ->
        exists rr rc,
          events_of (midi_close s)
          = [Call (Reset hd rr); Call (Close hd rc);
             Log debug [sv "Closed MIDI output device"]])
  /\ live_after (held s) (events_of r1) = held (state_of r1)
  /\ (forall pre post,
        events_of r = pre ++ post ->
        (List.length (live_after (held s) pre) <= 1)%nat)
  /\ (forall ops pre post,
        events_of (run_ops ops s) = pre ++ post ->
        (List.length (live_after (held s) pre) <= 1)%nat).
Proof.
  intros r1 r. split; [| split; [| split; [| split]]].
  - subst r1. destruct (midi_open_closes_first s device_name1) as [rest E].
    destruct (midi_close_quiet_open s) as (_ & Hc & _).
    exists rest. split; [exact E |]. split; [apply midi_close_live | exact Hc].
  - intros hd Hh. rewrite (midi_close_open s hd Hh).
    eexists. eexists. reflexivity.
  - apply midi_open_live.
  - apply within_one_prefix. subst r. rewrite bind_run.
    destruct (midi_open_live device_name1 s) as [H1 H2].
    destruct (result_of (midi_open device_name1 s)) as [st | e];
      cbn [events_of snd]; [| exact H1].
    destruct (midi_open_live device_name2 (state_of (midi_open device_name1 s)))
      as [H3 _].
    rewrite within_one_app, H1, H2, H3. reflexivity.
  - intros ops. apply within_one_prefix. apply run_ops_live.
Qed.

(** *** What an enumeration asks and what it lists *)

Lemma answered_app (e1 e2 : list event) :
  answered (e1 ++ e2) = answered e1 ++ answered e2.
Proof. unfold answered. apply flat_map_app. Qed.

Lemma queried_answered (evs : list event) :
  queried evs = map fst (answered evs).
Proof.
  induction evs as [| e evs IH]; [reflexivity |].
  change (e :: evs) with ([e] ++ evs).
  unfold queried, answered in *. rewrite !flat_map_app, map_app, IH.
  destruct e as [[] |]; reflexivity.
Qed.

(** The enumeration loop, from index [i] with [n] rounds to go: its
    calls are its queries, on the indices from [i] on; it returns when
    every query it made failed or has a name of positive measured size,
    with the descriptors of the queries that succeeded appended; it
    throws at the first other query. *)
Lemma list_devices_loop_spec (n : nat) :
  forall (i : Z) (devices : list midi_device_info_t) (s : state W),
    let r := list_devices_loop n i devices s in
    let A := answered (events_of r) in
    calls (events_of r)
    = map (fun q => GetDevCapsW (fst (fst q)) (snd (fst q)) (snd q)) A
    /\ (exists k, (k <= n)%nat /\ map fst (map fst A) = upto k i)
    /\ match result_of r with
       | Ret l =>
           forallb nameable A = true
           /\ l = devices ++ map descriptor (filter listed A)
           /\ map fst (map fst A) = upto n i
       | Throw e =>
           e = length_error
           /\ exists pre q,
                A = pre ++ [q]
                /\ forallb nameable pre = true
                /\ nameable q = false
       end.
Proof.
  induction n as [| n IH]; intros i devices s.
  - cbn. split; [reflexivity |]. split.
    + exists O. split; [lia | reflexivity].
    + rewrite app_nil_r. repeat split.
  - cbv zeta. rewrite list_devices_loop_step.
    set (q := win_midiOutGetDevCapsW i (world s)).
    set (rc := fst (fst q)). set (caps := snd (fst q)).
    set (s1 := mkState (midi_handle s) (snd q)).
    destruct (rc =? MMSYSERR_NOERROR) eqn:Erc; cbn [negb].
    + destruct (1 <=? measured caps) eqn:Em.
      * specialize (IH (i + 1) (devices ++ [descriptor (i, rc, caps)]) s1).
        cbv zeta in IH. destruct IH as (Hc & (k & Hk & Hq) & Hr).
        cbn [result_of state_of events_of fst snd].
        change (Call (GetDevCapsW i rc caps) :: ?e)
          with ([Call (GetDevCapsW i rc caps)] ++ e).
        rewrite calls_app, answered_app.
        cbn [calls answered flat_map app map fst snd].
        fold (calls (events_of (list_devices_loop n (i + 1)
                                  (devices ++ [descriptor (i, rc, caps)]) s1))).
        fold (answered (events_of (list_devices_loop n (i + 1)
                                     (devices ++ [descriptor (i, rc, caps)])
                                     s1))).
        rewrite Hc. split; [reflexivity |]. split.
        -- exists (S k). split; [lia |]. cbn [upto]. rewrite Hq. reflexivity.
        -- destruct (result_of (list_devices_loop n _ _ _)) as [l | e].
           ++ destruct Hr as (Hn & Hl & Hu).
              cbn [forallb filter]. unfold nameable at 1, listed at 1 2.
              cbn [fst snd]. fold caps. rewrite Erc, Em, Hn, Hl, Hu.
              cbn [negb orb andb map]. rewrite <- app_assoc.
              repeat split.
           ++ destruct Hr as (He & pre & q' & HA & Hp & Hq').
              split; [exact He |].
              exists ((i, rc, caps) :: pre), q'. rewrite HA.
              split; [reflexivity |]. split; [| exact Hq'].
              cbn [forallb]. unfold nameable at 1, listed.
              cbn [fst snd]. rewrite Erc, Em, Hp. reflexivity.
      * cbn [result_of state_of events_of fst snd calls answered flat_map
             app map].
        split; [reflexivity |]. split.
        -- exists 1%nat. split; [lia | reflexivity].
        -- split; [reflexivity |]. exists [], (i, rc, caps).
           split; [reflexivity |]. split; [reflexivity |].
           unfold nameable, listed. cbn [fst snd]. rewrite Erc, Em.
           reflexivity.
    + specialize (IH (i + 1) devices s1).
      cbv zeta in IH. destruct IH as (Hc & (k & Hk & Hq) & Hr).
      cbn [result_of state_of events_of fst snd].
      change (Call (GetDevCapsW i rc caps) :: ?e)
        with ([Call (GetDevCapsW i rc caps)] ++ e).
      rewrite calls_app, answered_app.
      cbn [calls answered flat_map app map fst snd].
      fold (calls (events_of (list_devices_loop n (i + 1) devices s1))).
      fold (answered (events_of (list_devices_loop n (i + 1) devices s1))).
      rewrite Hc. split; [reflexivity |]. split.
      * exists (S k). split; [lia |]. cbn [upto]. rewrite Hq. reflexivity.
      * destruct (result_of (list_devices_loop n _ _ _)) as [l | e].
        -- destruct Hr as (Hn & Hl & Hu).
           cbn [forallb filter]. unfold nameable at 1, listed at 1 2.
           cbn [fst snd]. rewrite Erc, Hn, Hl, Hu.
           repeat split.
        -- destruct Hr as (He & pre & q' & HA & Hp & Hq').
           split; [exact He |].
           exists ((i, rc, caps) :: pre), q'. rewrite HA.
           split; [reflexivity |]. split; [| exact Hq'].
           cbn [forallb]. unfold nameable at 1, listed.
           cbn [fst snd]. rewrite Erc, Hp. reflexivity.
Qed.

(** What [midi_list_devices] makes of the platform's answers. *)
Lemma midi_list_devices_spec (s : state W) :
  let r := midi_list_devices s in
  let n := fst (win_midiOutGetNumDevs (world s)) in
  let A := answered (events_of r) in
  calls (events_of r)
  = GetNumDevs n
      :: map (fun q => GetDevCapsW (fst (fst q)) (snd (fst q)) (snd q)) A
  /\ (exists k, (k <= Z.to_nat n)%nat /\ map fst (map fst A) = upto k 0)
  /\ match result_of r with
     | Ret l =>
         forallb nameable A = true
         /\ l = map descriptor (filter listed A)
         /\ map fst (map fst A) = upto (Z.to_nat n) 0
     | Throw e =>
         e = length_error
         /\ exists pre q,
              A = pre ++ [q]
              /\ forallb nameable pre = true
              /\ nameable q = false
     end.
Proof.
  cbv zeta. rewrite midi_list_devices_run.
  cbn [result_of state_of events_of fst snd].
  set (n := fst (win_midiOutGetNumDevs (world s))).
  pose proof (list_devices_loop_spec (Z.to_nat n) 0 []
                (mkState (midi_handle s)
                   (snd (win_midiOutGetNumDevs (world s))))) as H.
  cbv zeta in H. destruct H as (Hc & Hk & Hr).
  change (Call (GetNumDevs n) :: ?e) with ([Call (GetNumDevs n)] ++ e).
  rewrite calls_app, answered_app. cbn [calls answered flat_map app].
  fold (calls (events_of (list_devices_loop (Z.to_nat n) 0 []
                            (mkState (midi_handle s)
                               (snd (win_midiOutGetNumDevs (world s))))))).
  fold (answered (events_of (list_devices_loop (Z.to_nat n) 0 []
                               (mkState (midi_handle s)
                                  (snd (win_midiOutGetNumDevs (world s))))))).
  rewrite Hc. split; [reflexivity |]. split; [exact Hk | exact Hr].
Qed.

(** The enumeration returns exactly when every query it made failed or
    has a name of positive measured size. *)
Lemma midi_list_devices_returns (s : state W) :
  returned (result_of (midi_list_devices s))
  = forallb nameable (answered (events_of (midi_list_devices s))).
Proof.
  destruct (midi_list_devices_spec s) as (_ & _ & H).
  destruct (result_of (midi_list_devices s)) as [l | e]; cbn [returned].
  - destruct H as (H & _). symmetry. exact H.
  - destruct H as (_ & pre & q & -> & _ & Hq).
    rewrite forallb_app. cbn [forallb]. rewrite Hq, andb_false_r.
    reflexivity.
Qed.

End Properties.

(** ** The stub backends *)

(** C9. On Linux and on macOS [midi_list_devices] returns the empty
    sequence, [midi_open] returns [-1] for every device name, "auto"
    included, and [midi_send] returns [-1] for every payload. *)
Theorem stubs_reject_everything :
  (result_of (Linux.midi_list_devices tt) = Ret []
   /\ result_of (MacOS.midi_list_devices tt) = Ret [])
  /\ (forall device_name,
        result_of (Linux.midi_open device_name tt) = Ret (-1)
        /\ result_of (MacOS.midi_open device_name tt) = Ret (-1))
  /\ result_of (Linux.midi_open "auto" tt) = Ret (-1)
  /\ result_of (MacOS.midi_open "auto" tt) = Ret (-1)
  /\ (forall data length,
        result_of (Linux.midi_send data length tt) = Ret (-1)
        /\ result_of (MacOS.midi_send data length tt) = Ret (-1)).
Proof. repeat split. Qed.

(** ** Runs on the simulated platform *)

(** The note-on [0x90, 0x40] goes out as the word [0x4090]. *)
Lemma short_message_packing_witness :
  calls (events_of (midi_send Sim.note_on 2 (Sim.opened 7 Sim.healthy)))
  = [ShortMsg 7 0x4090 0].
Proof.
  refine (proj1 (short_message_packing (Sim.opened 7 Sim.healthy) 7
                   Sim.note_on 2 _ _ _)).
  - reflexivity.
  - reflexivity.
  - lia.
Defined.

(** A refused long message is still un-prepared, once. *)
Lemma long_message_cleanup_witness :
  submitted_and_released_once
    (events_of (midi_send Sim.sysex 5 (Sim.opened 7 Sim.long_fails))).
Proof.
  refine (proj2 (proj1 (proj2 (long_message_cleanup
                                 (Sim.opened 7 Sim.long_fails) 7
                                 Sim.sysex 5 _ _ _)) _)).
  - reflexivity.
  - reflexivity.
  - lia.
  - reflexivity.
Defined.

(** C2, as stated, fails: when the preparation is refused nothing is
    submitted and nothing is un-prepared. *)
Lemma long_message_prepare_refused :
  ~ submitted_and_released_once
      (events_of (midi_send Sim.sysex 5 (Sim.opened 7 Sim.prepare_fails))).
Proof. intros [H _]. vm_compute in H. discriminate H. Qed.

(** A refused long message gives [-1] and a warning with the code. *)
Lemma send_status_witness :
  result_of (midi_send Sim.sysex 5 (Sim.opened 7 Sim.long_fails)) = Ret (-1)
  /\ warns_with 7
       (events_of (midi_send Sim.sysex 5 (Sim.opened 7 Sim.long_fails))).
Proof.
  refine (proj1 (proj1 (send_status_reflects_examined_calls
                          (Sim.opened 7 Sim.long_fails) Sim.sysex 5))
            (LongMsg 7 _ 7) _ _ _).
  - right. left. reflexivity.
  - reflexivity.
  - discriminate.
Defined.

(** C3, as stated, fails: the un-prepare call returns the non-zero code
    65 and [midi_send] returns 0, without a warning. *)
Lemma unprepare_failure_unreported :
  result_of (midi_send Sim.sysex 5 (Sim.opened 7 Sim.still_playing)) = Ret 0
  /\ In (UnprepareHeader 7 (Sim.with_flags (sysex_header Sim.sysex 5) 2) 65)
        (calls (events_of
                  (midi_send Sim.sysex 5 (Sim.opened 7 Sim.still_playing))))
  /\ logs (events_of
             (midi_send Sim.sysex 5 (Sim.opened 7 Sim.still_playing))) = []
  /\ ~ reports_failures any_call
        (result_of (midi_send Sim.sysex 5 (Sim.opened 7 Sim.still_playing)))
        (events_of (midi_send Sim.sysex 5 (Sim.opened 7 Sim.still_playing))).
Proof.
  split; [reflexivity | split; [| split; [reflexivity |]]].
  - right. right. left. reflexivity.
  - intros [_ H]. specialize (H eq_refl).
    pose proof (H _ (or_intror (or_intror (or_introl eq_refl))) eq_refl) as E.
    discriminate E.
Qed.

(** Re-opening under another name: the first handle is closed before the
    second is opened. *)
Lemma at_most_one_live_handle_witness :
  exists rr rc,
    events_of (midi_close (Sim.opened 7 Sim.healthy))
    = [Call (Reset 7 rr); Call (Close 7 rc);
       Log debug [sv "Closed MIDI output device"]].
Proof.
  refine (proj1 (proj2 (at_most_one_live_handle (Sim.opened 7 Sim.healthy)
                          "USB MIDI Interface" "auto")) 7 _).
  reflexivity.
Defined.

Lemma send_rejects_benign_witness :
  result_of (midi_send Sim.note_on 2 (Sim.closed Sim.healthy)) = Ret (-1).
Proof.
  refine (proj1 (send_rejects_benign (Sim.closed Sim.healthy)
                   Sim.note_on 2 _)).
  left. reflexivity.
Defined.

Lemma open_without_devices_witness :
  result_of (midi_open "USB MIDI Interface" (Sim.closed Sim.empty))
  = Ret (-1).
Proof.
  refine (proj1 (open_without_devices (Sim.closed Sim.empty)
                   "USB MIDI Interface" _)).
  reflexivity.
Defined.

Lemma open_auto_same_as_empty_witness :
  midi_open "auto" (Sim.opened 7 Sim.healthy)
  = midi_open "" (Sim.opened 7 Sim.healthy).
Proof.
  exact (proj1 (open_auto_same_as_empty (Sim.opened 7 Sim.healthy))).
Defined.

(** A re-open refused by the platform: the device that was open is gone
    and a send fails. *)
Lemma failed_open_leaves_closed_witness :
  midi_handle (state_of (midi_open "auto" (Sim.opened 7 Sim.busy))) = None
  /\ result_of (midi_send Sim.note_on 2
                  (state_of (midi_open "auto" (Sim.opened 7 Sim.busy))))
     = Ret (-1).
Proof.
  pose proof (failed_open_leaves_closed (Sim.opened 7 Sim.busy) "auto" eq_refl)
    as H.
  split; [exact (proj1 H) | exact (proj1 (proj2 (proj2 H)) Sim.note_on 2)].
Defined.

(** The word of the note-on is the same when the platform refuses it. *)
Example note_on_refused :
  midi_send Sim.note_on 2 (Sim.opened 7 Sim.short_fails)
  = (Ret (-1), Sim.opened 7 Sim.short_fails,
     [Call (ShortMsg 7 0x4090 8);
      Log warning [sv "MIDI short message send failed: error "; num 8]]).
Proof. reflexivity. Qed.


(** A whole session: initialize, list, open the first device by name,
    send a three-byte note-on, close, deinitialize.  Every status is 0
    and no handle is left. *)
Example session :
  let caps0 := {| szPname := Sim.wide "Microsoft GS Wavetable Synth" |} in
  let caps1 := {| szPname := Sim.wide "USB MIDI Interface" |} in
  run_ops [OpInit {| midi := false; midi_device := "" |}; OpListDevices;
           OpOpen "Microsoft GS Wavetable Synth";
           OpSend (Some [x90; x40; x7f]) 3; OpClose; OpDeinit]
          (Sim.closed Sim.healthy)
  = ([(OpInit {| midi := false; midi_device := "" |}, Ret 0);
      (OpListDevices, Ret 0);
      (OpOpen "Microsoft GS Wavetable Synth", Ret 0);
      (OpSend (Some [x90; x40; x7f]) 3, Ret 0);
      (OpClose, Ret 0); (OpDeinit, Ret 0)],
     Sim.closed (Sim.mkWorld (Sim.devs Sim.healthy) 0 0 0 0 0 4097),
     [Log info [sv "Initializing MIDI subsystem"];
      Call (GetNumDevs 2);
      Call (GetDevCapsW 0 0 caps0); Call (GetDevCapsW 1 0 caps1);
      Log info [sv "Found "; num 2; sv " MIDI output device(s)"];
      Log info [sv "  MIDI device "; num 0; sv ": ";
                str "Microsoft GS Wavetable Synth"];
      Log info [sv "  MIDI device "; num 1; sv ": ";
                str "USB MIDI Interface"];
      Call (GetNumDevs 2);
      Call (GetDevCapsW 0 0 caps0); Call (GetDevCapsW 1 0 caps1);
      Call (GetNumDevs 2);
      Call (GetDevCapsW 0 0 caps0); Call (GetDevCapsW 1 0 caps1);
      Log info [sv "Found MIDI device '";
                str "Microsoft GS Wavetable Synth";
                sv "' at index "; num 0];
      Call (GetNumDevs 2); Call (Open 0 0 (Some 4096));
      Log info [sv "Opened MIDI output device "; num 0];
      Call (ShortMsg 4096 0x7f4090 0);
      Call (Reset 4096 0); Call (Close 4096 0);
      Log debug [sv "Closed MIDI output device"];
      Log info [sv "Shutting down MIDI subsystem"]]).
Proof. reflexivity. Qed.

(** The same session on a platform that cannot convert the name of its
    second device: the initialization, the listing and the open by name
    each end in [length_error]; nothing is ever opened, so the send is
    refused. *)
Example session_garbled :
  map snd
    (result_of
       (run_ops [OpInit {| midi := false; midi_device := "" |};
                 OpListDevices; OpOpen "Microsoft GS Wavetable Synth";
                 OpSend (Some [x90; x40; x7f]) 3; OpClose; OpDeinit]
                (Sim.closed Sim.garbled)))
  = [Throw length_error; Throw length_error; Throw length_error;
     Ret (-1); Ret 0; Ret 0].
Proof. reflexivity. Qed.

(** * Further properties of the adapter *)

(** ** Integer conversions *)

Lemma to_int_small (i : Z) : 0 <= i < 2 ^ 31 -> to_int i = i.
Proof.
  intros H. unfold to_int. rewrite Z.mod_small; lia.
Qed.

Lemma to_UINT_to_int (i : Z) : 0 <= i < 2 ^ 32 -> to_UINT (to_int i) = i.
Proof.
  intros H. unfold to_UINT, to_int.
  rewrite Zminus_mod_idemp_l.
  replace (i + 2 ^ 31 - 2 ^ 31) with i by lia.
  apply Z.mod_small. exact H.
Qed.

Lemma upto_In (n : nat) :
  forall i x, In x (upto n i) <-> i <= x < i + Z.of_nat n.
Proof.
  induction n as [| n IH]; intros i x; cbn [upto In].
  - lia.
  - rewrite IH. lia.
Qed.

Lemma upto_length (n : nat) : forall i, List.length (upto n i) = n.
Proof.
  induction n as [| n IH]; intros i; cbn; [reflexivity |].
  rewrite IH. reflexivity.
Qed.

Lemma queried_app (e1 e2 : list event) :
  queried (e1 ++ e2) = queried e1 ++ queried e2.
Proof. unfold queried. apply flat_map_app. Qed.

(** Indices that count up from [i] stay sorted and in range when some
    are left out and the rest are converted to [int]. *)
Lemma upto_ids_sorted (k : nat) :
  forall (i : Z) (Q : list (Z * Z)),
    map fst Q = upto k i ->
    0 <= i -> i + Z.of_nat k <= 2 ^ 31 ->
    StronglySorted Z.lt
      (map (fun q => to_int (fst q)) (filter succeeded Q))
    /\ Forall (fun x => i <= x < i + Z.of_nat k)
         (map (fun q => to_int (fst q)) (filter succeeded Q)).
Proof.
  induction k as [| k IH]; intros i Q HQ H0 Hk.
  - destruct Q; [| discriminate]. split; constructor.
  - destruct Q as [| [j rc] Q]; [discriminate |].
    cbn [map upto fst] in HQ. injection HQ as -> HQ.
    destruct (IH (i + 1) Q HQ) as [Hs Hf]; [lia | lia |].
    cbn [filter]. destruct (succeeded (i, rc)).
    + cbn [map fst]. rewrite (to_int_small i) by lia. split.
      * constructor; [exact Hs |].
        revert Hf. apply Forall_impl. intros x Hx. lia.
      * constructor; [lia |].
        revert Hf. apply Forall_impl. intros x Hx. lia.
    + split; [exact Hs |].
      revert Hf. apply Forall_impl. intros x Hx. lia.
Qed.

Section Enumeration.
Context {W : Type} {P : Win32 W}.

Lemma capabilities_indices (n : nat) :
  forall (i : Z) (w : W),
    map fst (map fst (capabilities n i w)) = upto n i.
Proof.
  induction n as [| n IH]; intros i w; [reflexivity |].
  cbn [capabilities map fst upto]. rewrite IH. reflexivity.
Qed.

(** The enumeration loop against the answers of the platform: it
    returns when every answer is a failure or has a name of positive
    measured size, with the descriptors of the successful ones
    appended, and throws otherwise; the queries it made are the first
    of those answers, all of them when it returns. *)
Lemma list_devices_loop_answers (n : nat) :
  forall (i : Z) (devices : list midi_device_info_t) (s : state W),
    let r := list_devices_loop n i devices s in
    let C := capabilities n i (world s) in
    result_of r
    = (if forallb nameable C
       then Ret (devices ++ map descriptor (filter listed C))
       else Throw length_error)
    /\ exists rest,
         C = answered (events_of r) ++ rest
         /\ (forallb nameable C = true -> rest = []).
Proof.
  induction n as [| n IH]; intros i devices s.
  - cbn. rewrite app_nil_r. split; [reflexivity |].
    exists []. split; reflexivity.
  - cbv zeta. rewrite list_devices_loop_step. cbn [capabilities].
    set (q := win_midiOutGetDevCapsW i (world s)).
    set (rc := fst (fst q)). set (caps := snd (fst q)).
    set (s1 := mkState (midi_handle s) (snd q)).
    change (snd q) with (world s1).
    cbn [forallb filter].
    change (nameable (i, rc, caps))
      with (negb (rc =? MMSYSERR_NOERROR) || (1 <=? measured caps)).
    change (listed (i, rc, caps)) with (rc =? MMSYSERR_NOERROR).
    destruct (rc =? MMSYSERR_NOERROR) eqn:Erc; cbn [negb orb andb].
    + destruct (1 <=? measured caps) eqn:Em; cbn [andb].
      * destruct (IH (i + 1) (devices ++ [descriptor (i, rc, caps)]) s1)
          as (Hr & rest & HC & Hn).
        cbn [result_of state_of events_of fst snd].
        rewrite Hr. split.
        -- destruct (forallb nameable _); [| reflexivity].
           cbn [map]. rewrite <- app_assoc. reflexivity.
        -- exists rest. split; [| exact Hn].
           change (Call (GetDevCapsW i rc caps) :: ?e)
             with ([Call (GetDevCapsW i rc caps)] ++ e).
           rewrite answered_app. cbn [answered flat_map app].
           fold (answered
                   (events_of
                      (list_devices_loop n (i + 1)
                         (devices ++ [descriptor (i, rc, caps)]) s1))).
           rewrite <- HC. reflexivity.
      * cbn [result_of state_of events_of fst snd]. split; [reflexivity |].
        exists (capabilities n (i + 1) (world s1)).
        split; [reflexivity | discriminate].
    + destruct (IH (i + 1) devices s1) as (Hr & rest & HC & Hn).
      cbn [result_of state_of events_of fst snd].
      rewrite Hr. split; [reflexivity |].
      exists rest. split; [| exact Hn].
      change (Call (GetDevCapsW i rc caps) :: ?e)
        with ([Call (GetDevCapsW i rc caps)] ++ e).
      rewrite answered_app. cbn [answered flat_map app].
      fold (answered (events_of (list_devices_loop n (i + 1) devices s1))).
      rewrite <- HC. reflexivity.
Qed.

(** [midi_list_devices] against the answers of the platform. *)
Lemma midi_list_devices_answers (s : state W) :
  let r := midi_list_devices s in
  let C := platform_devices s in
  result_of r
  = (if forallb nameable C
     then Ret (map descriptor (filter listed C))
     else Throw length_error)
  /\ exists rest,
       C = answered (events_of r) ++ rest
       /\ (forallb nameable C = true -> rest = []).
Proof.
  cbv zeta. rewrite midi_list_devices_run. unfold platform_devices.
  cbn [result_of state_of events_of fst snd].
  destruct (list_devices_loop_answers
              (Z.to_nat (fst (win_midiOutGetNumDevs (world s)))) 0 []
              (mkState (midi_handle s)
                 (snd (win_midiOutGetNumDevs (world s)))))
    as (Hr & rest & HC & Hn).
  cbn [world app] in Hr, HC, Hn. split; [exact Hr |].
  exists rest. split; [| exact Hn].
  change (Call (GetNumDevs ?n) :: ?e) with ([Call (GetNumDevs n)] ++ e).
  rewrite answered_app. exact HC.
Qed.

Lemma filter_succeeded_listed (A : list (Z * Z * MIDIOUTCAPSW)) :
  filter succeeded (map fst A) = map fst (filter listed A).
Proof.
  induction A as [| q A IH]; [reflexivity |].
  cbn [map filter]. change (succeeded (fst q)) with (listed q).
  destruct (listed q); cbn [map]; rewrite IH; reflexivity.
Qed.

(** The ids of a returned list are the indices of the successful
    queries. *)
Lemma midi_list_devices_ids (s : state W) (devices : list midi_device_info_t) :
  result_of (midi_list_devices s) = Ret devices ->
  map id devices
  = map (fun q => to_int (fst q))
      (filter succeeded (queried (events_of (midi_list_devices s))))
  /\ map fst (queried (events_of (midi_list_devices s)))
     = upto (Z.to_nat (fst (win_midiOutGetNumDevs (world s)))) 0.
Proof.
  intros Hr. destruct (midi_list_devices_spec s) as (_ & _ & H).
  rewrite Hr in H. destruct H as (_ & -> & Hu).
  rewrite queried_answered. split; [| exact Hu].
  rewrite filter_succeeded_listed, !map_map. reflexivity.
Qed.

(** X1. [midi_list_devices] asks the platform for the device count once
    and then for the capabilities of the indices 0, 1, ... in this
    order and each once, as far as it gets: through every index below
    the count when it returns, and up to the first successful query
    whose name measures no positive size otherwise, where it ends in
    [std::length_error].  It returns exactly when every answer of the
    platform is a failure or has a name of positive measured size.  It
    makes no other call, logs nothing and leaves the handle as it
    was. *)
Theorem list_devices_queries_each_index (s : state W) :
  let r := midi_list_devices s in
  let n := fst (win_midiOutGetNumDevs (world s)) in
  let A := answered (events_of r) in
  calls (events_of r)
  = GetNumDevs n
      :: map (fun q => GetDevCapsW (fst (fst q)) (snd (fst q)) (snd q)) A
  /\ (exists rest, platform_devices s = A ++ rest)
  /\ (exists k, (k <= Z.to_nat n)%nat
                /\ map fst (queried (events_of r)) = upto k 0)
  /\ returned (result_of r) = forallb nameable (platform_devices s)
  /\ (returned (result_of r) = true ->
      A = platform_devices s
      /\ map fst (queried (events_of r)) = upto (Z.to_nat n) 0)
  /\ (returned (result_of r) = false ->
      result_of r = Throw length_error
      /\ exists pre q,
           A = pre ++ [q]
           /\ forallb nameable pre = true
           /\ listed q = true
           /\ measured (snd q) <= 0)
  /\ forallb enumeration_event (events_of r) = true
  /\ midi_handle (state_of r) = midi_handle s.
Proof.
  cbv zeta.
  destruct (midi_list_devices_spec s) as (Hc & Hk & Hr).
  destruct (midi_list_devices_answers s) as (Ha & rest & HC & Hn).
  destruct (midi_list_devices_inv s) as [Hh He].
  split; [exact Hc |]. split; [exists rest; exact HC |].
  split; [rewrite queried_answered; exact Hk |].
  split.
  { rewrite Ha. destruct (forallb nameable (platform_devices s));
      reflexivity. }
  split; [| split; [| split; [exact He | exact Hh]]].
  - intros Hret. rewrite Ha in Hret, Hr.
    destruct (forallb nameable (platform_devices s)); [| discriminate].
    rewrite (Hn eq_refl), app_nil_r in HC.
    split; [symmetry; exact HC |].
    rewrite queried_answered. exact (proj2 (proj2 Hr)).
  - intros Hret.
    destruct (result_of (midi_list_devices s)) as [l | e]; [discriminate |].
    destruct Hr as (-> & pre & q & HA & Hp & Hq).
    split; [reflexivity |]. exists pre, q.
    split; [exact HA |]. split; [exact Hp |].
    unfold nameable in Hq. destruct (listed q); [| discriminate].
    split; [reflexivity |].
    cbn [negb orb] in Hq. apply Z.leb_gt in Hq. lia.
Qed.

(** X2. The devices [midi_list_devices] returns are those whose
    capability query succeeded, in the order of the queries, each with
    the index it was asked for as its id and with the name converted
    from the capability record the platform answered; a device whose
    query fails is left out and the ids of the others do not shift. *)
Theorem list_devices_lists_successes
    (s : state W) (devices : list midi_device_info_t) :
  let r := midi_list_devices s in
  result_of r = Ret devices ->
  map id devices
  = map (fun q => to_int (fst q)) (filter succeeded (queried (events_of r)))
  /\ (List.length devices
      <= Z.to_nat (fst (win_midiOutGetNumDevs (world s))))%nat
  /\ devices = map descriptor (filter listed (platform_devices s)).
Proof.
  intros r Hr. subst r.
  destruct (midi_list_devices_ids s devices Hr) as [Hid Hq].
  split; [exact Hid |]. split.
  - rewrite <- (length_map id), Hid, length_map.
    eapply Nat.le_trans; [apply filter_length_le |].
    rewrite <- (length_map fst), Hq, upto_length. apply Nat.le_refl.
  - destruct (midi_list_devices_answers s) as (Ha & _).
    rewrite Hr in Ha.
    destruct (forallb nameable (platform_devices s)); [| discriminate].
    injection Ha as ->. reflexivity.
Qed.

(** X3. When the platform reports at most 2^31 devices, the ids of a
    list [midi_list_devices] returns are strictly increasing and lie
    between 0 and the reported count; in particular no id occurs twice.
    When the count is 0 it returns the empty list. *)
Theorem list_devices_ids_increase (s : state W) :
  let n := fst (win_midiOutGetNumDevs (world s)) in
  n <= 2 ^ 31 ->
  (forall devices,
     result_of (midi_list_devices s) = Ret devices ->
     StronglySorted Z.lt (map id devices)
     /\ Forall (fun d => 0 <= id d < n) devices
     /\ NoDup (map id devices))
  /\ (n = 0 -> result_of (midi_list_devices s) = Ret []).
Proof.
  intros n Hn. split.
  - intros devices Hr.
    destruct (midi_list_devices_ids s devices Hr) as [Hid Hq]. fold n in Hq.
    assert (H : StronglySorted Z.lt (map id devices)
                /\ Forall (fun x => 0 <= x < n) (map id devices)).
    { destruct (Z_le_gt_dec 0 n) as [Hp | Hp].
      - destruct (upto_ids_sorted (Z.to_nat n) 0 _ Hq) as [Hs Hf];
          [lia | lia |].
        rewrite Hid. split; [exact Hs |].
        revert Hf. apply Forall_impl. intros x Hx. lia.
      - replace (Z.to_nat n) with O in Hq by lia.
        destruct (queried _); [| discriminate].
        rewrite Hid. split; constructor. }
    destruct H as [Hs Hf]. split; [exact Hs |]. split.
    + rewrite Forall_map in Hf. exact Hf.
    + clear - Hs.
      induction Hs as [| a l Hs IH Ha]; constructor; [| exact IH].
      intros Hin. rewrite Forall_forall in Ha. specialize (Ha a Hin). lia.
  - intros H0. rewrite midi_list_devices_run. subst n. rewrite H0.
    reflexivity.
Qed.

(** X4. For every device [midi_list_devices] returns, the device id
    [midi_open] derives from it (the [int] id converted back to [UINT])
    is the index of a capability query that succeeded, and its name is
    the one converted from the record that query answered: the two
    casts cancel as long as the reported count fits 32 bits. *)
Theorem listed_id_is_platform_index
    (s : state W) (devices : list midi_device_info_t)
    (dev : midi_device_info_t) :
  let r := midi_list_devices s in
  let n := fst (win_midiOutGetNumDevs (world s)) in
  n <= 2 ^ 32 ->
  result_of r = Ret devices ->
  In dev devices ->
  0 <= to_UINT (id dev) < n
  /\ In (to_UINT (id dev), MMSYSERR_NOERROR) (queried (events_of r))
  /\ exists caps,
       In (to_UINT (id dev), MMSYSERR_NOERROR, caps) (platform_devices s)
       /\ name dev = utf8_name caps.
Proof.
  intros r n Hn Hr Hin. subst r.
  destruct (midi_list_devices_spec s) as (_ & _ & H).
  destruct (midi_list_devices_answers s) as (Ha & rest & HC & Hrest).
  rewrite Hr in H, Ha. destruct H as (_ & Hl & Hu). fold n in Hu.
  assert (HA : platform_devices s
               = answered (events_of (midi_list_devices s))).
  { destruct (forallb nameable (platform_devices s)) eqn:E.
    - assert (Hnil : rest = [])
        by (apply Hrest; first [exact E | reflexivity]).
      rewrite Hnil, app_nil_r in HC. exact HC.
    - rewrite ?E in Ha. discriminate Ha. }
  rewrite Hl in Hin. apply in_map_iff in Hin.
  destruct Hin as ([[i rc] caps] & <- & Hf).
  apply filter_In in Hf. destruct Hf as [Hi Hs].
  unfold listed in Hs. cbn [fst snd] in Hs. apply Z.eqb_eq in Hs. subst rc.
  assert (Hidx : In i (map fst (map fst
                   (answered (events_of (midi_list_devices s))))))
    by (apply (in_map fst), (in_map fst) in Hi; exact Hi).
  rewrite Hu in Hidx. apply upto_In in Hidx.
  assert (Hb : 0 <= i < 2 ^ 32) by lia.
  cbn [descriptor id name fst snd]. rewrite (to_UINT_to_int i Hb).
  split; [lia |]. split.
  - rewrite queried_answered. apply (in_map fst) in Hi. exact Hi.
  - exists caps. rewrite HA. split; [exact Hi | reflexivity].
Qed.

End Enumeration.

Section Lifecycle.
Context {W : Type} {P : Win32 W}.

(** ** midi_close and midi_deinit *)

(** X5. [midi_close] leaves no handle held whatever the platform answers
    to the reset and to the close; on an open device its only calls are
    that reset and that close, on the held handle and in this order;
    with no device open it does nothing at all; and closing twice is
    closing once. *)
Theorem close_clears_and_is_idempotent (s : state W) :
  midi_handle (state_of (midi_close s)) = None
  /\ (forall hd, midi_handle s = Some hd ->
        calls (events_of (midi_close s))
        = [Reset hd (fst (win_midiOutReset hd (world s)));
           Close hd (fst (win_midiOutClose hd
                            (snd (win_midiOutReset hd (world s)))))])
  /\ (midi_handle s = None -> midi_close s = (Ret tt, s, []))
  /\ (midi_close ;; midi_close) s = midi_close s.
Proof.
  split; [apply midi_close_handle |]. split; [| split].
  - intros hd Hh. rewrite (midi_close_open s hd Hh). reflexivity.
  - apply midi_close_closed.
  - rewrite bind_run, midi_close_returns.
    rewrite (midi_close_closed (state_of (midi_close s)) (midi_close_handle s)).
    cbn [result_of state_of events_of fst snd]. rewrite app_nil_r.
    rewrite <- (midi_close_returns s). symmetry. apply run_eta.
Qed.

(** X6. After [midi_close] and after [midi_deinit] no handle is held:
    every [midi_send] returns [-1] without a platform call, and a
    further [midi_deinit] makes no platform call either. *)
Theorem send_after_close_fails (s : state W) (data : payload) (length : Z) :
  midi_handle (state_of (midi_deinit s)) = None
  /\ result_of (midi_send data length (state_of (midi_close s))) = Ret (-1)
  /\ calls (events_of (midi_send data length (state_of (midi_close s)))) = []
  /\ result_of (midi_send data length (state_of (midi_deinit s))) = Ret (-1)
  /\ calls (events_of (midi_send data length (state_of (midi_deinit s)))) = []
  /\ calls (events_of (midi_deinit (state_of (midi_deinit s)))) = [].
Proof.
  assert (Hd : state_of (midi_deinit s) = state_of (midi_close s))
    by (rewrite midi_deinit_run; reflexivity).
  pose proof (midi_close_handle s) as Hc.
  rewrite Hd.
  rewrite (midi_send_benign_run _ data length (or_introl Hc)), Hc.
  repeat split; try assumption.
  rewrite midi_deinit_run, (midi_close_closed _ Hc). reflexivity.
Qed.

(** ** midi_init *)

(** X7. [midi_init] returns 0 or ends in [std::length_error], never
    another status; it ends in the exception whenever its enumeration
    does, right there, before the device count is logged.  When MIDI is
    disabled in the configuration or no device name is configured, it
    only enumerates and logs: it returns 0 exactly when every answer of
    the platform is a failure or has a name of positive measured size,
    it opens and closes nothing and the handle is as before. *)
Theorem init_returns_zero_or_throws (input : input_t) (s : state W) :
  let r := midi_init input s in
  let l := midi_list_devices s in
  (result_of r = Ret 0 \/ result_of r = Throw length_error)
  /\ (returned (result_of l) = false ->
      r = (Throw length_error, state_of l,
           Log info [sv "Initializing MIDI subsystem"] :: events_of l))
  /\ (configured input = false ->
      result_of r
      = (if forallb nameable (platform_devices s)
         then Ret 0 else Throw length_error)
      /\ existsb handle_event (events_of r) = false
      /\ count is_Open (events_of r) = 0%nat
      /\ state_of r = state_of l
      /\ midi_handle (state_of r) = midi_handle s).
Proof.
  cbv zeta. rewrite midi_init_run. cbv zeta.
  destruct (midi_list_devices_inv s) as [Hh He].
  apply enumeration_quiet in He.
  destruct (midi_list_devices_answers s) as (Ha & _).
  destruct (midi_list_devices_spec s) as (_ & _ & Hs).
  destruct (result_of (midi_list_devices s)) as [devices | e] eqn:El.
  - assert (Hn : forallb nameable (platform_devices s) = true).
    { destruct (forallb nameable (platform_devices s));
        [reflexivity | discriminate Ha]. }
    split; [| split; [discriminate |]].
    + destruct (configured input); [| left; reflexivity].
      destruct (midi_open_status (midi_device input)
                  (state_of (midi_list_devices s)))
        as [[H0 _] | ([H0 | H0] & _)]; rewrite H0;
        [left | left | right]; reflexivity.
    + intros Hoff. rewrite Hoff, Hn.
      cbn [result_of state_of events_of fst snd].
      assert (Hev : existsb handle_event
                      ((Log info [sv "Initializing MIDI subsystem"]
                          :: events_of (midi_list_devices s))
                         ++ init_lines devices) = false).
      { rewrite existsb_app, init_lines_quiet. cbn. rewrite He.
        reflexivity. }
      split; [reflexivity |]. split; [exact Hev |].
      split; [apply quiet_no_open; exact Hev |].
      split; [reflexivity | exact Hh].
  - destruct Hs as (-> & _).
    split; [right; reflexivity |]. split; [reflexivity |].
    intros _. cbn [result_of state_of events_of fst snd].
    destruct (forallb nameable (platform_devices s));
      [discriminate Ha |].
    split; [reflexivity |]. split; [cbn; exact He |].
    split; [apply quiet_no_open; cbn; exact He |].
    split; [reflexivity | exact Hh].
Qed.

(** X8. With MIDI enabled and a device name configured, once its
    enumeration has returned [midi_init] logs the devices, then runs
    [midi_open] on the configured name, and the state it leaves is the
    one [midi_open] left.  When that open returns a status, [midi_init]
    ends with one line that says whether the status was 0, and its own
    status is 0 also when the open failed; when that open ends in
    [std::length_error], so does [midi_init], without that line. *)
Theorem init_opens_configured_device
    (input : input_t) (s : state W) (devices : list midi_device_info_t) :
  midi input = true -> midi_device input <> "" ->
  result_of (midi_list_devices s) = Ret devices ->
  let o := midi_open (midi_device input) (state_of (midi_list_devices s)) in
  let q := Log info [sv "Initializing MIDI subsystem"]
             :: events_of (midi_list_devices s) ++ init_lines devices in
  state_of (midi_init input s) = state_of o
  /\ existsb handle_event q = false
  /\ match result_of o with
     | Ret st =>
         result_of (midi_init input s) = Ret 0
         /\ events_of (midi_init input s)
            = q ++ events_of o
                ++ [if st =? 0
                    then Log info
                           [sv "MIDI output device opened successfully"]
                    else Log warning
                           [sv "Failed to open MIDI output device"]]
     | Throw e =>
         result_of (midi_init input s) = Throw length_error
         /\ events_of (midi_init input s) = q ++ events_of o
     end.
Proof.
  intros Hm Hd Hl o q.
  destruct (midi_list_devices_inv s) as [_ He].
  apply enumeration_quiet in He.
  apply String.eqb_neq in Hd.
  rewrite midi_init_run. cbv zeta. rewrite Hl.
  unfold configured. rewrite Hm, Hd. cbn [andb negb]. fold o.
  assert (Hq : existsb handle_event q = false).
  { subst q. cbn. rewrite existsb_app, init_lines_quiet, He. reflexivity. }
  destruct (midi_open_status (midi_device input)
              (state_of (midi_list_devices s)))
    as [[H0 _] | ([H0 | H0] & _)]; fold o in H0; rewrite H0;
    cbn [result_of state_of events_of fst snd];
    (split; [reflexivity |]); (split; [exact Hq |]);
    split; reflexivity.
Qed.

(** ** midi_open *)

(** X9. [midi_open] calls the platform open at most once.  When it
    returns a status it has asked the platform for the device count,
    and it has called the platform open exactly once when the count it
    was told last is not zero, and not at all when it is zero.  It ends
    in [std::length_error] instead exactly when it searches by name and
    some answer of the platform to the enumeration is a success whose
    name has no positive measured size; then it has not called the
    platform open. *)
Theorem open_attempts_once (s : state W) (device_name : string) :
  let r := midi_open device_name s in
  let C := platform_devices (state_of (midi_close s)) in
  (count is_Open (events_of r) <= 1)%nat
  /\ returned (result_of r)
     = negb (by_name device_name && negb (forallb nameable C))
  /\ (returned (result_of r) = true ->
      exists n,
        reported_devices (events_of r) = Some n
        /\ count is_Open (events_of r) = if n =? 0 then 0%nat else 1%nat)
  /\ (returned (result_of r) = false ->
      result_of r = Throw length_error
      /\ count is_Open (events_of r) = 0%nat).
Proof.
  cbv zeta.
  destruct (midi_close_quiet_open s) as (_ & Hc & _).
  assert (Hret : returned (result_of (select_run device_name
                                        (state_of (midi_close s))))
                 = negb (by_name device_name
                         && negb (forallb nameable
                                    (platform_devices
                                       (state_of (midi_close s)))))).
  { unfold select_run.
    destruct (midi_list_devices_answers (state_of (midi_close s)))
      as (Ha & _).
    destruct (by_name device_name); [| reflexivity].
    rewrite Ha.
    destruct (forallb nameable _); reflexivity. }
  rewrite midi_open_run.
  destruct (select_run_quiet device_name (state_of (midi_close s)))
    as (Hq & Hh & Ht).
  set (sr := select_run device_name (state_of (midi_close s))) in *.
  destruct (result_of sr) as [device_id | e]; cbv zeta.
  2:{ cbn [returned] in Hret. rewrite <- Hret.
      cbn [result_of state_of events_of fst snd returned].
      rewrite !count_app, Hc, (quiet_no_open _ Hq).
      destruct (Ht e eq_refl) as (-> & _).
      split; [lia |]. split; [reflexivity |].
      split; [discriminate | split; reflexivity]. }
  cbn [returned] in Hret. rewrite <- Hret.
  set (pn := win_midiOutGetNumDevs (world (state_of sr))).
  destruct (fst pn =? 0) eqn:Hn.
  - cbn [result_of state_of events_of fst snd returned].
    rewrite <- !app_assoc. rewrite !count_app, Hc, (quiet_no_open _ Hq).
    cbn [app]. split; [cbn; lia |].
    split; [reflexivity |]. split; [| discriminate].
    intros _. exists (fst pn). rewrite Hn. split; [| reflexivity].
    rewrite !app_assoc, reported_devices_app. reflexivity.
  - destruct (_ =? MMSYSERR_NOERROR);
      cbn [result_of state_of events_of fst snd returned];
      rewrite <- !app_assoc; rewrite !count_app, Hc, (quiet_no_open _ Hq);
      cbn [app]; (split; [cbn; lia |]);
      (split; [reflexivity |]); (split; [| discriminate]);
      intros _; exists (fst pn); rewrite Hn; (split; [| reflexivity]);
      rewrite !app_assoc, reported_devices_app; reflexivity.
Qed.

(** After a [midi_open] that returned 0 the handle held is the one a
    successful platform open wrote. *)
Lemma midi_open_success_handle (s : state W) (device_name : string) :
  result_of (midi_open device_name s) = Ret 0 ->
  exists d,
    In (Call (Open d MMSYSERR_NOERROR
                (midi_handle (state_of (midi_open device_name s)))))
       (events_of (midi_open device_name s)).
Proof.
  rewrite midi_open_run. cbv zeta.
  destruct (result_of (select_run _ _)) as [device_id | e];
    [| discriminate].
  destruct (_ =? 0); [discriminate |].
  destruct (_ =? MMSYSERR_NOERROR) eqn:Ho; [| discriminate].
  intros _. apply Z.eqb_eq in Ho.
  cbn [state_of events_of fst snd midi_handle].
  exists device_id. rewrite <- Ho at 1.
  apply in_or_app. right. left. reflexivity.
Qed.

(** X10. A status [midi_open] returns is 0 or [-1]; it is 0 exactly
    when the platform open succeeded, and then the handle the adapter
    holds is the one that successful call wrote. *)
Theorem open_status_matches_platform (s : state W) (device_name : string) :
  let r := midi_open device_name s in
  (result_of r = Ret 0 \/ result_of r = Ret (-1)
   \/ result_of r = Throw length_error)
  /\ (forall st, result_of r = Ret st -> st = 0 \/ st = -1)
  /\ (result_of r = Ret 0 <-> existsb open_succeeded (events_of r) = true)
  /\ (result_of r = Ret 0 ->
      exists d,
        In (Call (Open d MMSYSERR_NOERROR (midi_handle (state_of r))))
           (events_of r)).
Proof.
  intros r.
  destruct (midi_open_status device_name s) as [[H0 H1] | (H0 & H1 & _)];
    fold r in H0, H1.
  - split; [left; exact H0 |].
    split; [intros st E; rewrite H0 in E; injection E as <-; left;
            reflexivity |].
    split; [split; intros _; assumption |].
    intros _. subst r. apply midi_open_success_handle. exact H0.
  - split; [right; exact H0 |]. rewrite H1.
    destruct H0 as [H0 | H0]; rewrite H0;
      (split; [intros st E; try discriminate E; injection E as <-; right;
               reflexivity |]);
      (split; [split; discriminate | discriminate]).
Qed.

(** ** midi_send *)

(** X11. [midi_send] makes at most three platform calls, all of them
    message calls (short send, prepare, long send, un-prepare) on the
    handle the adapter holds; it never opens, closes, resets or
    enumerates, and it leaves the handle as it was. *)
Theorem send_only_messages_held_handle
    (s : state W) (data : payload) (length : Z) :
  (forall c, In c (calls (events_of (midi_send data length s))) ->
     is_message c = true /\ target c = midi_handle s)
  /\ (List.length (calls (events_of (midi_send data length s))) <= 3)%nat
  /\ midi_handle (state_of (midi_send data length s)) = midi_handle s.
Proof.
  destruct (midi_handle s) as [hd |] eqn:Hh.
  2:{ rewrite (midi_send_benign_run s data length (or_introl Hh)), Hh.
      cbn. repeat split; try (intros c []); try lia; exact Hh. }
  destruct data as [buf |].
  2:{ rewrite (midi_send_benign_run s None length)
        by (right; right; reflexivity).
      rewrite Hh. cbn. repeat split; try (intros c []); try lia; exact Hh. }
  destruct (Z.eq_dec length 0) as [-> | H0].
  { rewrite (midi_send_benign_run s (Some buf) 0)
      by (right; left; reflexivity).
    rewrite Hh. cbn. repeat split; try (intros c []); try lia; exact Hh. }
  destruct (Z_le_gt_dec length 3) as [H3 | H3].
  - rewrite (midi_send_short_run s hd (Some buf) length Hh eq_refl H0 H3).
    destruct (_ =? MMSYSERR_NOERROR); cbn;
      (split; [intros c [<- | []]; split; reflexivity | split; [lia |]]);
      reflexivity.
  - assert (H3' : 3 < length) by lia.
    rewrite (midi_send_long_run s hd (Some buf) length Hh eq_refl H3').
    destruct (_ =? MMSYSERR_NOERROR);
      [destruct (_ =? MMSYSERR_NOERROR) |]; cbn;
      (split; [| split; [lia | reflexivity]]).
    + intros c [<- | [<- | [<- | []]]]; split; reflexivity.
    + intros c [<- | [<- | [<- | []]]]; split; reflexivity.
    + intros c [<- | []]; split; reflexivity.
Qed.

(** X12. On the long-message path the header handed to the prepare step
    points at the payload, has no flag set, and gives the length reduced
    to 32 bits as buffer length and as bytes recorded: the length itself
    when it is below 2^32. *)
Theorem long_message_header
    (s : state W) (hd : handle) (buf : list byte) (length : Z) :
  midi_handle s = Some hd ->
  3 < length ->
  exists hdr rp rest,
    calls (events_of (midi_send (Some buf) length s))
    = PrepareHeader hd hdr rp :: rest
    /\ lpData hdr = buf
    /\ dwFlags hdr = 0
    /\ dwBufferLength hdr = length mod 2 ^ 32
    /\ dwBytesRecorded hdr = length mod 2 ^ 32
    /\ (length < 2 ^ 32 ->
        dwBufferLength hdr = length /\ dwBytesRecorded hdr = length).
Proof.
  intros Hh H3.
  rewrite (midi_send_long_run s hd (Some buf) length Hh eq_refl H3).
  exists (sysex_header (Some buf) length).
  destruct (_ =? MMSYSERR_NOERROR);
    [destruct (_ =? MMSYSERR_NOERROR) |];
    cbn [events_of snd calls flat_map app];
    eexists; eexists; (split; [reflexivity |]);
    cbn [sysex_header lpData dwFlags dwBufferLength dwBytesRecorded];
    unfold to_DWORD; repeat split; try reflexivity;
    apply Z.mod_small; lia.
Qed.

(** X13. A send right after a successful open goes to the device just
    opened: when [midi_open] returned 0 and left the handle [hd], a
    payload of one to three bytes is passed in one short-message call on
    [hd], the handle a successful platform open wrote, and the status of
    the send is 0 exactly when that call returned zero. *)
Theorem open_then_send_reaches_device
    (s : state W) (device_name : string) (hd : handle)
    (data : payload) (length : Z) :
  let o := midi_open device_name s in
  let p := win_midiOutShortMsg hd (short_msg data length)
             (world (state_of o)) in
  result_of o = Ret 0 ->
  midi_handle (state_of o) = Some hd ->
  is_nullptr data = false ->
  1 <= length <= 3 ->
  (exists d, In (Call (Open d MMSYSERR_NOERROR (Some hd))) (events_of o))
  /\ calls (events_of (midi_send data length (state_of o)))
     = [ShortMsg hd (short_msg data length) (fst p)]
  /\ (result_of (midi_send data length (state_of o)) = Ret 0
      <-> fst p = MMSYSERR_NOERROR).
Proof.
  intros o p Ho Hh Hd Hl. split.
  - pose proof (midi_open_success_handle s device_name Ho) as H.
    fold o in H. rewrite Hh in H. exact H.
  - rewrite (midi_send_short_run (state_of o) hd data length Hh Hd) by lia.
    fold p. destruct (fst p =? MMSYSERR_NOERROR) eqn:E;
      cbn [result_of events_of fst snd calls flat_map app];
      [apply Z.eqb_eq in E | apply Z.eqb_neq in E];
      (split; [reflexivity |]); split; intros H;
      try discriminate; try reflexivity; try exact E; contradiction.
Qed.

(** ** Whole sessions *)

Lemma run_ops_live_after (ops : list op) :
  forall s : state W,
    live_after (held s) (events_of (run_ops ops s))
    = held (state_of (run_ops ops s)).
Proof.
  induction ops as [| o rest IH]; intros s; [reflexivity |].
  cbn [run_ops]. cbv zeta. cbn [result_of state_of events_of fst snd].
  destruct (run_op_live o s) as [_ H2].
  rewrite live_after_app, H2. apply IH.
Qed.

Lemma run_ops_app (ops1 ops2 : list op) :
  forall s : state W,
    run_ops (ops1 ++ ops2) s
    = (result_of (run_ops ops1 s)
         ++ result_of (run_ops ops2 (state_of (run_ops ops1 s))),
       state_of (run_ops ops2 (state_of (run_ops ops1 s))),
       events_of (run_ops ops1 s)
         ++ events_of (run_ops ops2 (state_of (run_ops ops1 s)))).
Proof.
  induction ops1 as [| o rest IH]; intros s.
  - cbn. apply run_eta.
  - cbn [app run_ops]. cbv zeta. rewrite IH.
    cbn [result_of state_of events_of fst snd]. rewrite <- app_assoc.
    reflexivity.
Qed.

(** X14. Whatever operations a session is made of, and however each of
    them ended, once the session ends with [midi_deinit] no handle is
    held and none is live: every handle a successful platform open
    produced has been passed to the platform close. *)
Theorem deinit_releases_everything (s : state W) (ops : list op) :
  let r := run_ops (ops ++ [OpDeinit]) s in
  midi_handle (state_of r) = None
  /\ live_after (held s) (events_of r) = []
  /\ state_of r = state_of (midi_deinit (state_of (run_ops ops s)))
  /\ events_of r
     = events_of (run_ops ops s)
         ++ events_of (midi_deinit (state_of (run_ops ops s))).
Proof.
  cbv zeta.
  assert (Hs : state_of (run_ops (ops ++ [OpDeinit]) s)
               = state_of (midi_deinit (state_of (run_ops ops s)))).
  { rewrite run_ops_app. cbn [run_ops run_op]. cbv zeta.
    rewrite bind_run, midi_deinit_run. reflexivity. }
  assert (Hn : midi_handle (state_of (run_ops (ops ++ [OpDeinit]) s)) = None).
  { rewrite Hs, midi_deinit_run. apply midi_close_handle. }
  split; [exact Hn |]. split; [| split; [exact Hs |]].
  - rewrite run_ops_live_after. unfold held. rewrite Hn. reflexivity.
  - rewrite run_ops_app. cbn [run_ops run_op]. cbv zeta.
    rewrite bind_run, midi_deinit_run.
    cbn [result_of state_of events_of fst snd ret].
    rewrite !app_nil_r. reflexivity.
Qed.

(** ** Opening by name, against the answers of the platform *)

(** Searching the returned list for a name is searching the answers of
    the platform for a successful query with that name. *)
Lemma find_descriptor (device_name : string)
    (C : list (Z * Z * MIDIOUTCAPSW)) :
  find (fun dev => String.eqb (name dev) device_name)
       (map descriptor (filter listed C))
  = option_map descriptor (find (named device_name) C).
Proof.
  induction C as [| q C IH]; [reflexivity |].
  cbn [filter find]. unfold named at 1.
  destruct (listed q); cbn [map find andb]; [| exact IH].
  change (name (descriptor q)) with (utf8_name (snd q)).
  destruct (String.eqb (utf8_name (snd q)) device_name);
    [reflexivity | exact IH].
Qed.

Lemma platform_devices_indices (s : state W) :
  map fst (map fst (platform_devices s))
  = upto (Z.to_nat (fst (win_midiOutGetNumDevs (world s)))) 0.
Proof. unfold platform_devices. apply capabilities_indices. Qed.

(** X16. An open by name, on a platform every device of which has a
    name the conversion can measure and which reports a device at the
    availability check.  The enumeration returns the devices the
    platform answered for, and [midi_open] opens the device of the
    first successful answer whose converted name is exactly the name
    asked for, under the index that answer was asked for; with no such
    answer it logs the warning and opens index 0.  Its status is 0
    exactly when the platform grants the open, and then it holds the
    handle the platform gave. *)
Theorem open_by_name_selects (s : state W) (device_name : string) :
  device_name <> "auto" -> device_name <> "" ->
  let c := midi_close s in
  let C := platform_devices (state_of c) in
  let l := midi_list_devices (state_of c) in
  let device_id := platform_select device_name C in
  let pn := win_midiOutGetNumDevs (world (state_of l)) in
  let po := win_midiOutOpen device_id (snd pn) in
  let r := midi_open device_name s in
  forallb nameable C = true ->
  fst pn <> 0 ->
  result_of l = Ret (map descriptor (filter listed C))
  /\ answered (events_of l) = C
  /\ events_of r
     = events_of c ++ events_of l
         ++ [platform_select_log device_name C;
             Call (GetNumDevs (fst pn));
             Call (Open device_id (fst (fst po)) (snd (fst po)));
             if fst (fst po) =? MMSYSERR_NOERROR
             then Log info [sv "Opened MIDI output device "; num device_id]
             else Log error [sv "Failed to open MIDI device: error ";
                             num (fst (fst po))]]
  /\ result_of r = Ret (if fst (fst po) =? MMSYSERR_NOERROR then 0 else -1)
  /\ state_of r
     = mkState (if fst (fst po) =? MMSYSERR_NOERROR
                then snd (fst po) else None)
               (snd po)
  /\ (forall q,
        find (named device_name) C = Some q ->
        device_id = to_UINT (to_int (fst (fst q)))
        /\ snd (fst q) = MMSYSERR_NOERROR
        /\ utf8_name (snd q) = device_name
        /\ (exists before after,
              C = before ++ q :: after
              /\ forall q', In q' before -> named device_name q' = false)
        /\ (fst (win_midiOutGetNumDevs (world (state_of c))) <= 2 ^ 32 ->
            device_id = fst (fst q)))
  /\ (find (named device_name) C = None ->
        device_id = 0
        /\ platform_select_log device_name C
           = Log warning [sv "MIDI device '"; str device_name;
                          sv "' not found, using default"]
        /\ forall q, In q C -> snd (fst q) = MMSYSERR_NOERROR ->
             utf8_name (snd q) <> device_name).
Proof.
  intros Ha He c C l device_id pn po r Hn Hp.
  destruct (midi_list_devices_answers (state_of c)) as (Hl & rest & HC & Hr).
  fold C l in Hl, HC, Hr. rewrite Hn in Hl.
  assert (HA : answered (events_of l) = C).
  { rewrite (Hr Hn), app_nil_r in HC. symmetry. exact HC. }
  assert (Hsel : spec_select device_name (map descriptor (filter listed C))
                 = device_id).
  { unfold spec_select, device_id, platform_select.
    rewrite find_descriptor.
    destruct (find (named device_name) C); reflexivity. }
  assert (Hlog : select_log device_name (map descriptor (filter listed C))
                 = platform_select_log device_name C).
  { unfold select_log, platform_select_log. rewrite find_descriptor.
    destruct (find (named device_name) C); reflexivity. }
  assert (Hrun : r = (Ret (if fst (fst po) =? MMSYSERR_NOERROR
                           then 0 else -1),
                      mkState (if fst (fst po) =? MMSYSERR_NOERROR
                               then snd (fst po) else None) (snd po),
                      events_of c ++ events_of l
                        ++ [platform_select_log device_name C;
                            Call (GetNumDevs (fst pn));
                            Call (Open device_id (fst (fst po))
                                    (snd (fst po)));
                            if fst (fst po) =? MMSYSERR_NOERROR
                            then Log info [sv "Opened MIDI output device ";
                                           num device_id]
                            else Log error
                                   [sv "Failed to open MIDI device: error ";
                                    num (fst (fst po))]])).
  { subst r. rewrite midi_open_run. cbv zeta. unfold select_run.
    rewrite (by_name_true _ Ha He). fold c l. rewrite Hl.
    cbn [result_of state_of events_of fst snd].
    rewrite Hsel, Hlog. fold pn. apply Z.eqb_neq in Hp. rewrite Hp.
    fold po. destruct (fst (fst po) =? MMSYSERR_NOERROR);
      rewrite <- !app_assoc; reflexivity. }
  split; [exact Hl |]. split; [exact HA |].
  rewrite Hrun. cbn [result_of state_of events_of fst snd].
  split; [reflexivity |]. split; [reflexivity |]. split; [reflexivity |].
  split.
  - intros q Hf.
    destruct (find_first _ _ _ Hf) as (Hq & before & after & E & Hb).
    unfold named in Hq. apply andb_true_iff in Hq. destruct Hq as [Hq1 Hq2].
    assert (Hid : device_id = to_UINT (to_int (fst (fst q))))
      by (unfold device_id, platform_select; rewrite Hf; reflexivity).
    split; [exact Hid |].
    split; [apply Z.eqb_eq; exact Hq1 |].
    split; [apply String.eqb_eq; exact Hq2 |].
    split; [exists before, after; split; [exact E | exact Hb] |].
    intros H32. rewrite Hid. apply to_UINT_to_int.
    assert (Hin : In (fst (fst q)) (map fst (map fst C))).
    { rewrite E, !map_app. apply in_or_app. right. left. reflexivity. }
    unfold C in Hin. rewrite platform_devices_indices in Hin.
    apply upto_In in Hin. lia.
  - intros Hf.
    split; [unfold device_id, platform_select; rewrite Hf; reflexivity |].
    split; [unfold platform_select_log; rewrite Hf; reflexivity |].
    intros q Hin Hq Hname.
    pose proof (find_none _ _ Hf q Hin) as Hno.
    unfold named, listed in Hno. rewrite Hq, Hname, String.eqb_refl in Hno.
    discriminate Hno.
Qed.

End Lifecycle.

(** ** The stub backends, over whole sessions *)

Lemma stub_run_op (o : op) :
  Linux_run_op o tt
  = (Ret (stub_status o), tt, events_of (Linux_run_op o tt))
  /\ MacOS_run_op o tt
     = (Ret (stub_status o), tt, events_of (MacOS_run_op o tt))
  /\ calls (events_of (Linux_run_op o tt)) = []
  /\ calls (events_of (MacOS_run_op o tt)) = [].
Proof. destruct o; repeat split. Qed.

(** X15. On the Linux and macOS stubs a session of any operations makes
    no platform call and keeps no state; every open and every send in it
    returns [-1], every other operation 0, and the two stubs answer
    every session with the same statuses. *)
Theorem stub_sessions (ops : list op) :
  calls (events_of (run_seq Linux_run_op ops tt)) = []
  /\ calls (events_of (run_seq MacOS_run_op ops tt)) = []
  /\ result_of (run_seq Linux_run_op ops tt)
     = Ret (map (fun o => (o, stub_status o)) ops)
  /\ result_of (run_seq MacOS_run_op ops tt)
     = result_of (run_seq Linux_run_op ops tt).
Proof.
  assert (H : calls (events_of (run_seq Linux_run_op ops tt)) = []
              /\ calls (events_of (run_seq MacOS_run_op ops tt)) = []
              /\ result_of (run_seq Linux_run_op ops tt)
                 = Ret (map (fun o => (o, stub_status o)) ops)
              /\ result_of (run_seq MacOS_run_op ops tt)
                 = Ret (map (fun o => (o, stub_status o)) ops)).
  { induction ops as [| o rest IH]; [repeat split |].
    destruct IH as (I1 & I2 & I3 & I4).
    destruct (stub_run_op o) as (L & M & CL & CM).
    cbn [run_seq]. rewrite !bind_run. rewrite L, M.
    cbn [result_of state_of events_of fst snd].
    rewrite !bind_run, I3, I4.
    cbn [result_of state_of events_of fst snd ret].
    rewrite !calls_app, CL, CM, I1, I2. repeat split. }
  destruct H as (H1 & H2 & H3 & H4).
  repeat split; try assumption. rewrite H3. exact H4.
Qed.

(** ** Further runs on the simulated platform *)

(** On the platform that cannot convert the name of its second device
    the enumeration stops at that device. *)
Lemma list_devices_queries_each_index_witness :
  result_of (midi_list_devices (Sim.closed Sim.garbled))
  = Throw length_error
  /\ exists pre q,
       answered (events_of (midi_list_devices (Sim.closed Sim.garbled)))
       = pre ++ [q]
       /\ forallb nameable pre = true
       /\ listed q = true
       /\ measured (snd q) <= 0.
Proof.
  refine (proj1 (proj2 (proj2 (proj2 (proj2 (proj2
            (list_devices_queries_each_index (Sim.closed Sim.garbled)))))))
            _).
  reflexivity.
Defined.

Lemma list_devices_lists_successes_witness :
  [{| id := 0; name := "Microsoft GS Wavetable Synth" |};
   {| id := 1; name := "USB MIDI Interface" |}]
  = map descriptor (filter listed (platform_devices (Sim.closed Sim.healthy))).
Proof.
  refine (proj2 (proj2 (list_devices_lists_successes
                          (Sim.closed Sim.healthy)
                          [{| id := 0;
                              name := "Microsoft GS Wavetable Synth" |};
                           {| id := 1; name := "USB MIDI Interface" |}] _))).
  reflexivity.
Defined.

Lemma list_devices_ids_increase_witness :
  NoDup (map id [{| id := 0; name := "Microsoft GS Wavetable Synth" |};
                 {| id := 1; name := "USB MIDI Interface" |}]).
Proof.
  refine (proj2 (proj2 (proj1
            (list_devices_ids_increase (Sim.closed Sim.healthy) _) _ _))).
  - vm_compute. discriminate.
  - reflexivity.
Defined.

Lemma listed_id_is_platform_index_witness :
  In (1, 0) (queried (events_of (midi_list_devices (Sim.closed Sim.healthy)))).
Proof.
  refine (proj1 (proj2 (listed_id_is_platform_index (Sim.closed Sim.healthy)
                   [{| id := 0; name := "Microsoft GS Wavetable Synth" |};
                    {| id := 1; name := "USB MIDI Interface" |}]
                   {| id := 1; name := "USB MIDI Interface" |} _ _ _))).
  - vm_compute. discriminate.
  - reflexivity.
  - right. left. reflexivity.
Defined.

Lemma close_clears_and_is_idempotent_witness :
  calls (events_of (midi_close (Sim.opened 7 Sim.healthy)))
  = [Reset 7 0; Close 7 0].
Proof.
  refine (proj1 (proj2 (close_clears_and_is_idempotent
                          (Sim.opened 7 Sim.healthy))) 7 _).
  reflexivity.
Defined.

(** With MIDI disabled an open device stays open through [midi_init]. *)
Lemma init_returns_zero_or_throws_witness :
  midi_handle (state_of (midi_init {| midi := false; midi_device := "auto" |}
                           (Sim.opened 7 Sim.healthy)))
  = Some 7.
Proof.
  refine (proj2 (proj2 (proj2 (proj2 (proj2 (proj2
            (init_returns_zero_or_throws
               {| midi := false; midi_device := "auto" |}
               (Sim.opened 7 Sim.healthy))) _))))).
  reflexivity.
Defined.

(** A refused open does not make [midi_init] fail. *)
Lemma init_opens_configured_device_witness :
  state_of (midi_init {| midi := true; midi_device := "auto" |}
              (Sim.closed Sim.busy))
  = state_of (midi_open "auto"
                (state_of (midi_list_devices (Sim.closed Sim.busy)))).
Proof.
  refine (proj1 (init_opens_configured_device
                   {| midi := true; midi_device := "auto" |}
                   (Sim.closed Sim.busy)
                   [{| id := 0; name := "Microsoft GS Wavetable Synth" |}]
                   _ _ _)).
  - reflexivity.
  - discriminate.
  - reflexivity.
Defined.

(** An open by name on the platform that cannot convert a name makes no
    platform open. *)
Lemma open_attempts_once_witness :
  result_of (midi_open "USB MIDI Interface" (Sim.opened 7 Sim.garbled))
  = Throw length_error
  /\ count is_Open
       (events_of (midi_open "USB MIDI Interface" (Sim.opened 7 Sim.garbled)))
     = 0%nat.
Proof.
  refine (proj2 (proj2 (proj2
            (open_attempts_once (Sim.opened 7 Sim.garbled)
               "USB MIDI Interface"))) _).
  reflexivity.
Defined.

Lemma open_status_matches_platform_witness :
  exists d,
    In (Call (Open d MMSYSERR_NOERROR
                (midi_handle
                   (state_of (midi_open "USB MIDI Interface"
                                (Sim.closed Sim.healthy))))))
       (events_of (midi_open "USB MIDI Interface" (Sim.closed Sim.healthy))).
Proof.
  refine (proj2 (proj2 (proj2 (open_status_matches_platform
                                 (Sim.closed Sim.healthy)
                                 "USB MIDI Interface"))) _).
  reflexivity.
Defined.

Lemma send_only_messages_held_handle_witness :
  is_message (ShortMsg 7 0x4090 0) = true
  /\ target (ShortMsg 7 0x4090 0) = Some 7.
Proof.
  refine (proj1 (send_only_messages_held_handle
                   (Sim.opened 7 Sim.healthy) Sim.note_on 2)
            (ShortMsg 7 0x4090 0) _).
  left. reflexivity.
Defined.

Lemma long_message_header_witness :
  exists hdr rp rest,
    calls (events_of (midi_send (Some [xf0; x01; x02; x03; xf7]) 5
                        (Sim.opened 7 Sim.healthy)))
    = PrepareHeader 7 hdr rp :: rest
    /\ lpData hdr = [xf0; x01; x02; x03; xf7]
    /\ dwFlags hdr = 0
    /\ dwBufferLength hdr = 5 mod 2 ^ 32
    /\ dwBytesRecorded hdr = 5 mod 2 ^ 32
    /\ (5 < 2 ^ 32 -> dwBufferLength hdr = 5 /\ dwBytesRecorded hdr = 5).
Proof.
  refine (long_message_header (Sim.opened 7 Sim.healthy) 7
            [xf0; x01; x02; x03; xf7] 5 _ _).
  - reflexivity.
  - reflexivity.
Defined.

Lemma open_then_send_reaches_device_witness :
  calls (events_of (midi_send Sim.note_on 2
                      (state_of (midi_open "auto" (Sim.closed Sim.healthy)))))
  = [ShortMsg 4096 0x4090 0].
Proof.
  refine (proj1 (proj2 (open_then_send_reaches_device
                          (Sim.closed Sim.healthy) "auto" 4096
                          Sim.note_on 2 _ _ _ _))).
  - reflexivity.
  - reflexivity.
  - reflexivity.
  - lia.
Defined.

(** Asked for the second device by its name, [midi_open] opens index 1;
    asked for a name no device has, it opens index 0. *)
Lemma open_by_name_selects_witness :
  result_of (midi_open "USB MIDI Interface" (Sim.opened 7 Sim.healthy))
  = Ret 0.
Proof.
  refine (proj1 (proj2 (proj2 (proj2
            (open_by_name_selects (Sim.opened 7 Sim.healthy)
               "USB MIDI Interface" _ _ _ _))))).
  - discriminate.
  - discriminate.
  - reflexivity.
  - discriminate.
Defined.

Example open_second_by_name :
  calls (events_of (midi_open "USB MIDI Interface"
                      (Sim.opened 7 Sim.healthy)))
  = [Reset 7 0; Close 7 0; GetNumDevs 2;
     GetDevCapsW 0 0 {| szPname := Sim.wide "Microsoft GS Wavetable Synth" |};
     GetDevCapsW 1 0 {| szPname := Sim.wide "USB MIDI Interface" |};
     GetNumDevs 2; Open 1 0 (Some 4096)].
Proof. reflexivity. Qed.

Example open_unknown_name :
  midi_open "NonexistentDeviceXYZ" (Sim.closed Sim.healthy)
  = (Ret 0,
     Sim.opened 4096 (Sim.mkWorld (Sim.devs Sim.healthy) 0 0 0 0 0 4097),
     [Call (GetNumDevs 2);
      Call (GetDevCapsW 0 0
              {| szPname := Sim.wide "Microsoft GS Wavetable Synth" |});
      Call (GetDevCapsW 1 0 {| szPname := Sim.wide "USB MIDI Interface" |});
      Log warning [sv "MIDI device '"; str "NonexistentDeviceXYZ";
                   sv "' not found, using default"];
      Call (GetNumDevs 2); Call (Open 0 0 (Some 4096));
      Log info [sv "Opened MIDI output device "; num 0]]).
Proof. reflexivity. Qed.
